(** * rwlink: the RPC method-dispatch core

    A shallow embedding of

    - [src/lib/callable.ts]: the [@callable()] decorator, the metadata
      registry it fills, [getCallableMethods], [isCallableMethod] and
      [dispatchRpcCall];
    - [src/agent.ts]: the [AgentObject] actor, its [fetch] entry point and
      its methods [ping], [getState], [addMessage], [dangerousMethod];
    - [src/lib/actorClient.ts]: [ActorProxy.callMethod] and the proxy
      methods;
    - [src/worker.tsx]: the handlers of [defineApp], up to the route of
      [/actors/*] to the durable objects;
    - [src/app/pages/Home.tsx]: the three handlers of the page.

    JavaScript values are a tagged union, thrown errors are a sum type,
    asynchronous methods are run to completion (one invocation at a time per
    instance), and every effect the code performs (console output, the system
    clock, the durable storage, the metadata arrays) is threaded through an
    explicit state. *)

From Stdlib Require Import ZArith Lia.
From stdpp Require Import base option list strings gmap pretty.

Local Set Warnings "-register-all".
Local Open Scope string_scope.
Local Open Scope list_scope.

(** ** JavaScript values *)

(** The values that travel through the dispatcher: method names and
    parameters read from a request body, results returned by methods, and the
    envelopes built around them.  Numbers are restricted to integers (the code
    only ever increments a counter); objects keep their properties in
    insertion order. *)
Inductive JsValue : Type :=
  | JUndefined
  | JNull
  | JBool (b : bool)
  | JNum (n : Z)
  | JStr (s : string)
  | JDate (ms : Z)
  | JArr (elems : list JsValue)
  | JObj (fields : list (string * JsValue)).

(** [ToBoolean]: the test behind [if (x)], [x || y] and [c ? a : b]. *)
Definition truthy (v : JsValue) : bool :=
  match v with
  | JUndefined | JNull => false
  | JBool b => b
  | JNum n => negb (n =? 0)%Z
  | JStr s => negb (String.eqb s "")
  | JDate _ | JArr _ | JObj _ => true
  end.

(** [a || b] *)
Definition js_or (a b : JsValue) : JsValue := if truthy a then a else b.

(** [name === v] where [name] is a string: strict equality never converts. *)
Definition strict_eq_string (name : string) (v : JsValue) : bool :=
  match v with
  | JStr s => String.eqb name s
  | _ => false
  end.

(** Own-property read [o.k] on a plain object; a missing property reads as
    [undefined]. *)
Fixpoint lookup_field (k : string) (fields : list (string * JsValue)) : JsValue :=
  match fields with
  | [] => JUndefined
  | (k', v) :: rest => if String.eqb k k' then v else lookup_field k rest
  end.

(** ** Thrown errors

    Every value the code throws or catches is an [Error] with a message; one
    constructor per throw site of the repository, and one per kind of error
    the runtime raises. *)
Inductive JsError : Type :=
  | NotCallableError (method : string)
      (* callable.ts: Error("Method '<m>' is not callable. Did you forget to add @callable()?") *)
  | MethodMissingError (method : string)
      (* callable.ts: Error("Method '<m>' not found on instance") *)
  | TransportError (status : Z) (statusText : string)
      (* actorClient.ts: Error("RPC call failed: <status> <statusText>") *)
  | RemoteError (payload : string)
      (* actorClient.ts: Error("RPC error: <error>") *)
  | TypeError (msg : string)
  | SyntaxError (msg : string)
  | RangeError (msg : string).

(** [error.message] *)
Definition message (e : JsError) : string :=
  match e with
  | NotCallableError m =>
      "Method '" +:+ m +:+ "' is not callable. Did you forget to add @callable()?"
  | MethodMissingError m => "Method '" +:+ m +:+ "' not found on instance"
  | TransportError status statusText =>
      "RPC call failed: " +:+ pretty status +:+ " " +:+ statusText
  | RemoteError payload => "RPC error: " +:+ payload
  | TypeError msg | SyntaxError msg | RangeError msg => msg
  end.

(** Property read [v.k] on a value that is neither [null] nor [undefined],
    for the keys the code reads ([method], [params], [error], [result]),
    none of which a built-in prototype defines: a primitive or an array has
    no such property. *)
Definition read_field (v : JsValue) (k : string) : JsValue :=
  match v with
  | JObj fields => lookup_field k fields
  | _ => JUndefined
  end.

(** Property read [v.k] on any value: reading a property of [null] or
    [undefined] throws. *)
Definition get_prop (v : JsValue) (k : string) : JsError + JsValue :=
  match v with
  | JUndefined =>
      inl (TypeError ("Cannot read properties of undefined (reading '" +:+ k +:+ "')"))
  | JNull =>
      inl (TypeError ("Cannot read properties of null (reading '" +:+ k +:+ "')"))
  | _ => inr (read_field v k)
  end.

(** The single-character strings of [s], as iterating a string yields them. *)
Fixpoint chars (s : string) : list JsValue :=
  match s with
  | EmptyString => []
  | String c rest => JStr (String c EmptyString) :: chars rest
  end.

(** [f(...v)]: the argument list a spread produces; only arrays and strings
    are iterable among the values modelled. *)
Definition spread (v : JsValue) : JsError + list JsValue :=
  match v with
  | JArr elems => inr elems
  | JStr s => inr (chars s)
  | _ => inl (TypeError "Spread syntax requires ...iterable[Symbol.iterator] to be a function")
  end.

(** [s.endsWith(t)] *)
Definition endsWith (s t : string) : bool :=
  let n := String.length s in
  let k := String.length t in
  (k <=? n)%nat && String.eqb (String.substring (n - k) k s) t.

(** [l.slice(-k)]: the last [k] elements, all of them when there are fewer. *)
Definition slice_last {A} (k : nat) (l : list A) : list A :=
  drop (length l - k) l.

(** ** URL paths

    The paths the URL parser returns as they are written: one [/], then a
    letter, a digit, [-] or [_], then only such characters and [/].  Such a
    path has no [?] or [#] to end it, no [.] or [..] segment to resolve,
    no character to percent-encode, and does not start with [//]. *)
Definition slash : Ascii.ascii := Ascii.ascii_of_nat 47.

Definition is_name_char (c : Ascii.ascii) : bool :=
  let n := Ascii.nat_of_ascii c in
  ((48 <=? n) && (n <=? 57) || (65 <=? n) && (n <=? 90) || (97 <=? n) && (n <=? 122)
   || (n =? 45) || (n =? 95))%nat.

Definition is_path_char (c : Ascii.ascii) : bool := is_name_char c || Ascii.eqb c slash.

Fixpoint all_chars (p : Ascii.ascii -> bool) (s : string) : bool :=
  match s with
  | EmptyString => true
  | String c rest => p c && all_chars p rest
  end.

Definition plain_path (path : string) : bool :=
  match path with
  | String c (String c' rest) =>
      Ascii.eqb c slash && is_name_char c' && all_chars is_path_char rest
  | _ => false
  end.

(** ** The platform

    What the runtime supplies and the repository does not define: the system
    clock as the sequence of its successive readings, the date formatters,
    the printing of numbers and the URL parser.  [toLocaleString ms tz] is
    [None] when the runtime rejects [tz] as a time zone (it then throws a
    [RangeError]).  [numberToString n] is [String(n)]: the decimal digits
    of a small number, the exponent form of a large one.
    [urlPathname path] is [new URL(path, origin).pathname] for a path
    written with a leading [/]; the parser cuts it at a [?] or a [#],
    resolves dot segments and percent-encodes, and leaves a plain path
    alone. *)
Class Platform : Type := {
  clock : nat -> Z;
  toISOString : Z -> string;
  toLocaleString : Z -> string -> option string;
  dateToString : Z -> string;
  numberToString : Z -> string;
  urlPathname : string -> string;
  urlPathname_plain : forall path, plain_path path = true -> urlPathname path = path
}.

(** What a conversion to a string throws when it fails. *)
Definition cannot_convert : JsError :=
  TypeError "Cannot convert object to primitive value".

(** Whether [String(v)] throws.  A plain object is converted by the
    [toString] it inherits unless a property of its own shadows it; a
    property read from JSON is never a function, and the conversion then
    ends in a [TypeError].  An array converts each of its elements other
    than [null] and [undefined]. *)
Fixpoint to_string_throws (v : JsValue) : bool :=
  match v with
  | JArr elems => existsb to_string_throws elems
  | JObj fields => existsb (fun kv => String.eqb (fst kv) "toString") fields
  | _ => false
  end.

Section Values.
Context {platform : Platform}.

(** The string [String(v)] returns, when it returns. *)
Fixpoint js_to_string (v : JsValue) : string :=
  match v with
  | JUndefined => "undefined"
  | JNull => "null"
  | JBool true => "true"
  | JBool false => "false"
  | JNum n => numberToString n
  | JStr s => s
  | JDate ms => dateToString ms
  | JArr elems =>
      let elem_string x :=
        match x with
        | JUndefined | JNull => ""
        | _ => js_to_string x
        end in
      (fix join (l : list JsValue) : string :=
         match l with
         | [] => ""
         | [x] => elem_string x
         | x :: rest => elem_string x +:+ "," +:+ join rest
         end) elems
  | JObj _ => "[object Object]"
  end.

(** [String(v)], the conversion a template literal applies to each of its
    substitutions, in order. *)
Definition ToString (v : JsValue) : JsError + string :=
  if to_string_throws v then inl cannot_convert else inr (js_to_string v).

(** What [JSON.parse(JSON.stringify(v))] yields, [None] when
    [JSON.stringify(v)] is [undefined]: an [undefined] property is dropped,
    an [undefined] array element becomes [null], a [Date] becomes its ISO
    string. *)
Fixpoint jsonify (v : JsValue) : option JsValue :=
  match v with
  | JUndefined => None
  | JNull => Some JNull
  | JBool b => Some (JBool b)
  | JNum n => Some (JNum n)
  | JStr s => Some (JStr s)
  | JDate ms => Some (JStr (toISOString ms))
  | JArr elems =>
      Some (JArr ((fix go (l : list JsValue) : list JsValue :=
                     match l with
                     | [] => []
                     | x :: rest => default JNull (jsonify x) :: go rest
                     end) elems))
  | JObj fields =>
      Some (JObj ((fix go (l : list (string * JsValue)) : list (string * JsValue) :=
                     match l with
                     | [] => []
                     | (k, x) :: rest =>
                         match jsonify x with
                         | Some x' => (k, x') :: go rest
                         | None => go rest
                         end
                     end) fields))
  end.
End Values.

(** A value is JSON-representable when it holds neither [undefined] nor a
    [Date], at any depth. *)
Fixpoint json_representable (v : JsValue) : bool :=
  match v with
  | JUndefined | JDate _ => false
  | JNull | JBool _ | JNum _ | JStr _ => true
  | JArr elems => forallb json_representable elems
  | JObj fields =>
      (fix go (l : list (string * JsValue)) : bool :=
         match l with
         | [] => true
         | (_, x) :: rest => json_representable x && go rest
         end) fields
  end.

(** ** The metadata registry ([reflect-metadata] under [CALLABLE_METHODS_KEY])

    An object is named by its place in the prototype forest: its own tag
    followed by the name of its prototype, so [tag :: p] has prototype [p] and
    [[]] is [Object.prototype].  The decorator receives the class prototype as
    [target]; the dispatcher passes an instance of the class. *)
Abbreviation Obj := (list nat) (only parsing).

(** Opaque handle of the decorated function; the registry only stores it. *)
Definition PropertyDescriptor : Type := nat.

Record MethodMetadata : Type := {
  name : string;
  descriptor : PropertyDescriptor
}.

(** The arrays of [MethodMetadata] live on the heap and are addressed by
    reference: [own] records, per object, the array defined on that very
    object under [CALLABLE_METHODS_KEY]; two objects may hold the same
    array. *)
Record MetaStore : Type := {
  own : gmap Obj nat;
  arrays : list (list MethodMetadata)
}.

Definition empty_store : MetaStore := {| own := ∅; arrays := [] |}.

(** [Reflect.getMetadata(CALLABLE_METHODS_KEY, target)]: the array defined on
    [target] itself, else the one found by walking up the prototype chain. *)
Fixpoint getMetadata (st : MetaStore) (target : Obj) : option nat :=
  match own st !! target with
  | Some ref => Some ref
  | None =>
      match target with
      | [] => None
      | _ :: prototype => getMetadata st prototype
      end
  end.

Definition deref (st : MetaStore) (ref : nat) : list MethodMetadata :=
  default [] (arrays st !! ref).

(** [callable()(target, propertyKey, descriptor)]: fetch the existing array
    or create one, [push] the entry onto it (in place), and define that
    array on [target]. *)
Definition callable (target : Obj) (propertyKey : string)
    (descriptor : PropertyDescriptor) (st : MetaStore) : MetaStore :=
  let entry := {| name := propertyKey; descriptor := descriptor |} in
  match getMetadata st target with
  | Some ref =>
      {| own := <[target := ref]> (own st);
         arrays := <[ref := deref st ref ++ [entry]]> (arrays st) |}
  | None =>
      {| own := <[target := length (arrays st)]> (own st);
         arrays := arrays st ++ [[entry]] |}
  end.

(** [getCallableMethods(target)] *)
Definition getCallableMethods (st : MetaStore) (target : Obj) : list MethodMetadata :=
  match getMetadata st target with
  | Some ref => deref st ref
  | None => []
  end.

(** [isCallableMethod(target, methodName)] *)
Definition isCallableMethod (st : MetaStore) (target : Obj) (methodName : JsValue) : bool :=
  existsb (fun method => strict_eq_string (name method) methodName)
          (getCallableMethods st target).

(** One application of the decorator, and a run of them in program order
    (class definitions are evaluated one after another). *)
Record Registration : Type := {
  reg_target : Obj;
  reg_key : string;
  reg_descriptor : PropertyDescriptor
}.

Definition decorate (st : MetaStore) (r : Registration) : MetaStore :=
  callable (reg_target r) (reg_key r) (reg_descriptor r) st.

Definition decorate_all (rs : list Registration) (st : MetaStore) : MetaStore :=
  fold_left decorate rs st.

(** [m] was registered on [target] by one of the decorator applications. *)
Definition registered_on (rs : list Registration) (target : Obj) (m : string) : Prop :=
  exists r, In r rs /\ reg_target r = target /\ reg_key r = m.

(** [a] is [b] or one of the objects on [b]'s prototype chain. *)
Definition on_chain_of (a b : Obj) : Prop := exists up, b = up ++ a.

(** ** Computations with state and exceptions

    A method body runs against a world [W] and either returns or throws. *)
Definition M (W A : Type) : Type := W -> (JsError + A) * W.

Definition ret {W A} (a : A) : M W A := fun w => (inr a, w).
Definition throw {W A} (e : JsError) : M W A := fun w => (inl e, w).
Definition bind {W A B} (m : M W A) (k : A -> M W B) : M W B :=
  fun w => match m w with
           | (inr a, w') => k a w'
           | (inl e, w') => (inl e, w')
           end.
Definition lift {W A} (r : JsError + A) : M W A := fun w => (r, w).

Notation "'let*' x := m 'in' k" := (bind m (fun x => k))
  (at level 10, x name, m at level 100, k at level 200).
Notation "m ;; k" := (bind m (fun _ => k))
  (at level 100, k at level 200, right associativity).

(** ** The dispatcher *)

(** The receiver of a dispatch: its identity for the metadata lookup and its
    function-valued members ([member m] is [Some f] exactly when
    [typeof instance[m] === 'function']). *)
Record Instance (W : Type) : Type := {
  inst_object : Obj;
  member : string -> option (list JsValue -> M W JsValue)
}.
Arguments inst_object {W} _.
Arguments member {W} _ _.

Section Dispatcher.
Context {platform : Platform} {W : Type}.

(** [dispatchRpcCall(instance, method, params = [])] *)
Definition dispatchRpcCall (st : MetaStore) (instance : Instance W)
    (method : JsValue) (params : JsValue) : M W JsValue :=
  let params := match params with JUndefined => JArr [] | _ => params end in
  if negb (isCallableMethod st (inst_object instance) method) then
    let* shown := lift (ToString method) in
    throw (NotCallableError shown)
  else
    match member instance (js_to_string method) with
    | None =>
        let* shown := lift (ToString method) in
        throw (MethodMissingError shown)
    | Some f =>
        let* args := lift (spread params) in
        f args
    end.
End Dispatcher.

(** ** Requests and responses *)

(** A body is known by what parsing it as JSON gives: the document, or a
    failure when the text (possibly empty) is not JSON. *)
Inductive Body : Type :=
  | JsonText (doc : JsValue)
  | PlainText (text : string).

Record Request : Type := {
  pathname : string;
  http_method : string;
  req_body : Body
}.

Record Response : Type := {
  status : Z;
  statusText : string;
  resp_body : Body
}.

(** What [JSON.parse] throws on a text that is not JSON. *)
Definition not_json : JsError := SyntaxError "Unexpected token in JSON".

(** [request.json()] and [response.json()] *)
Definition body_json {W} (b : Body) : M W JsValue :=
  match b with
  | JsonText doc => ret doc
  | PlainText _ => throw not_json
  end.

(** [response.ok] *)
Definition ok (r : Response) : bool := (200 <=? status r)%Z && (status r <=? 299)%Z.

Section Wire.
Context {platform : Platform}.

(** The text [JSON.stringify(v)] as a body. *)
Definition JSON_stringify (v : JsValue) : Body :=
  match jsonify v with
  | Some doc => JsonText doc
  | None => PlainText "undefined"
  end.

(** [new Response(text, { status })]; the status defaults to 200. *)
Definition new_Response (b : Body) (st : option Z) : Response :=
  {| status := default 200%Z st; statusText := ""; resp_body := b |}.
End Wire.

(** ** The stateful object: the entry point *)

Section EntryPoint.
Context {platform : Platform} {W : Type}.

(** What destructuring [null] or [undefined] throws. *)
Definition cannot_destructure (body : JsValue) : JsError :=
  TypeError ("Cannot destructure property 'method' of 'body' as it is "
             +:+ js_to_string body +:+ ".").

(** [const { method, params = [] } = body]: the default applies when the
    property reads as [undefined]. *)
Definition destructure_call (body : JsValue) : M W (JsValue * JsValue) :=
  match body with
  | JUndefined | JNull => throw (cannot_destructure body)
  | _ =>
      ret (read_field body "method",
           match read_field body "params" with
           | JUndefined => JArr []
           | params => params
           end)
  end.

(** The body of the [try] block of [fetch], up to the dispatcher's
    result. *)
Definition rpc_call (st : MetaStore) (this : Instance W) (request : Request)
    : M W JsValue :=
  let* body := body_json (req_body request) in
  let* call := destructure_call body in
  dispatchRpcCall st this (fst call) (snd call).

(** [url.pathname.endsWith("/rpc") && request.method === "POST"] *)
Definition is_rpc (request : Request) : bool :=
  endsWith (pathname request) "/rpc" && String.eqb (http_method request) "POST".

(** [async fetch(request)] *)
Definition fetch (st : MetaStore) (this : Instance W) (request : Request)
    : W -> Response * W :=
  fun w =>
    if is_rpc request then
      match rpc_call st this request w with
      | (inr result, w') =>
          (new_Response (JSON_stringify (JObj [("result", result)])) None, w')
      | (inl error, w') =>
          (new_Response (JSON_stringify (JObj [("error", JStr (message error))]))
                        (Some 500%Z), w')
      end
    else (new_Response (PlainText "Hello from Actor!") None, w).
End EntryPoint.

(** ** The stateful object: [AgentObject] *)

Record AgentState : Type := {
  counter : Z;
  messages : list string;
  lastUpdated : option Z
}.

(** The state an instance is constructed with. *)
Definition initialState : AgentState :=
  {| counter := 0; messages := []; lastUpdated := None |}.

(** What one instance sees: its in-memory [state], the durable storage
    [this.storage.raw] (absent when the actor was built without one, which
    is what the [?.] of every access guards), the console, and the number
    of clock readings taken so far. *)
Record World : Type := {
  state : AgentState;
  raw : option (gmap string AgentState);
  console : list (list JsValue);
  ticks : nat
}.

Definition set_state (s : AgentState) (w : World) : World :=
  {| state := s; raw := raw w; console := console w; ticks := ticks w |}.
Definition set_raw (r : option (gmap string AgentState)) (w : World) : World :=
  {| state := state w; raw := r; console := console w; ticks := ticks w |}.
Definition set_console (c : list (list JsValue)) (w : World) : World :=
  {| state := state w; raw := raw w; console := c; ticks := ticks w |}.
Definition set_ticks (n : nat) (w : World) : World :=
  {| state := state w; raw := raw w; console := console w; ticks := n |}.

(** The double quote character, for the message of [addMessage]. *)
Definition dquote : string := String (Ascii.ascii_of_nat 34) EmptyString.

(** An [AgentState] as the object a method returns. *)
Definition state_value (s : AgentState) : JsValue :=
  JObj [("counter", JNum (counter s));
        ("messages", JArr (map JStr (messages s)));
        ("lastUpdated", match lastUpdated s with Some ms => JDate ms | None => JNull end)].

Module AgentObject.
Section Methods.
Context {platform : Platform}.

(** [console.log(...args)] *)
Definition console_log (args : list JsValue) : M World unit :=
  fun w => (inr tt, set_console (console w ++ [args]) w).

(** [new Date()]: the next reading of the clock. *)
Definition new_Date : M World Z :=
  fun w => (inr (clock (ticks w)), set_ticks (S (ticks w)) w).

Definition this_state : M World AgentState := fun w => (inr (state w), w).
Definition assign_state (s : AgentState) : M World unit :=
  fun w => (inr tt, set_state s w).

(** [await this.storage.raw?.put(key, value)] *)
Definition storage_put (key : string) (value : AgentState) : M World unit :=
  fun w => (inr tt, match raw w with
                    | Some store => set_raw (Some (<[key := value]> store)) w
                    | None => w
                    end).

(** [await this.storage.raw?.get(key)] *)
Definition storage_get (key : string) : M World (option AgentState) :=
  fun w => (inr (match raw w with
                 | Some store => store !! key
                 | None => None
                 end), w).

(** [@callable() async ping(timezone?)]; the first template literal is
    evaluated before anything is printed, and [zone] is the [timeZone]
    option as the formatter reads it. *)
Definition ping (args : list JsValue) : M World JsValue :=
  let timezone := nth 0 args JUndefined in
  let* note :=
    (if truthy timezone then
       let* shown := lift (ToString timezone) in
       ret (JStr ("for timezone: " +:+ shown))
     else ret (JStr "")) in
  console_log [JStr "Ping received, responding with pong"; note] ;;
  let* s := this_state in
  let* updated := new_Date in
  let* shown := lift (ToString (js_or timezone (JStr "default"))) in
  let* stamp := new_Date in
  assign_state
    {| counter := (counter s + 1)%Z;
       messages :=
         slice_last 10
           (messages s ++ ["ping " +:+ shown +:+ " at " +:+ toISOString stamp]);
       lastUpdated := Some updated |} ;;
  let* s' := this_state in
  storage_put "state" s' ;;
  if truthy timezone then
    let* now := new_Date in
    let* shown := lift (ToString timezone) in
    let* zone := lift (ToString timezone) in
    match toLocaleString now zone with
    | Some local => ret (JStr ("pong from " +:+ shown +:+ " at " +:+ local))
    | None => throw (RangeError ("Invalid time zone specified: " +:+ zone))
    end
  else ret (JStr "pong").

(** [@callable() async getState()]; a stored state is an object, hence
    truthy, so [stored || this.state] falls back exactly when nothing is
    stored. *)
Definition getState (args : list JsValue) : M World JsValue :=
  let* stored := storage_get "state" in
  let* s := this_state in
  ret (state_value (match stored with Some v => v | None => s end)).

(** [@callable() async addMessage(message)]; the message is converted
    before the clock is read. *)
Definition addMessage (args : list JsValue) : M World JsValue :=
  let message := nth 0 args JUndefined in
  console_log [JStr "Adding message:"; message] ;;
  let* s := this_state in
  let* shown := lift (ToString message) in
  let* stamp := new_Date in
  assign_state
    {| counter := counter s;
       messages := slice_last 10 (messages s ++ [shown +:+ " at " +:+ toISOString stamp]);
       lastUpdated := lastUpdated s |} ;;
  let* s' := this_state in
  storage_put "state" s' ;;
  let* shown := lift (ToString message) in
  ret (JStr ("Message " +:+ dquote +:+ shown +:+ dquote +:+ " added successfully")).

(** [async dangerousMethod()], not decorated. *)
Definition dangerousMethod (args : list JsValue) : M World JsValue :=
  console_log [JStr "This should not be callable from RPC!"] ;;
  ret (JStr "This method should not be accessible").

(** The methods the class body declares.  ([fetch], [constructor] and the
    members inherited from [Actor] are functions too; none of them is
    decorated, so under the registry of the class no dispatch looks them
    up.) *)
Definition methods (m : string) : option (list JsValue -> M World JsValue) :=
  if String.eqb m "ping" then Some ping
  else if String.eqb m "getState" then Some getState
  else if String.eqb m "addMessage" then Some addMessage
  else if String.eqb m "dangerousMethod" then Some dangerousMethod
  else None.
End Methods.

(** The prototype chain of the class. *)
Definition DurableObject_prototype : Obj := [1].
Definition Actor_prototype : Obj := 2 :: DurableObject_prototype.
Definition prototype : Obj := 3 :: Actor_prototype.

(** Instance number [id] of the class. *)
Definition instance {platform : Platform} (id : nat) : Instance World :=
  {| inst_object := id :: prototype; member := methods |}.

(** The three [@callable()] decorations of the class body, in source
    order (descriptor handles 0, 1, 2), and the registry they leave. *)
Definition decorations : list Registration :=
  [ {| reg_target := prototype; reg_key := "ping"; reg_descriptor := 0 |};
    {| reg_target := prototype; reg_key := "getState"; reg_descriptor := 1 |};
    {| reg_target := prototype; reg_key := "addMessage"; reg_descriptor := 2 |} ].

Definition registry : MetaStore := decorate_all decorations empty_store.

(** A freshly constructed instance's world, over a given storage. *)
Definition fresh (store : option (gmap string AgentState)) : World :=
  {| state := initialState; raw := store; console := []; ticks := 0 |}.

(** Eviction and re-instantiation: the in-memory state is the default
    again, the storage is kept. *)
Definition restart (w : World) : World := set_state initialState w.
End AgentObject.

(** ** The client proxy *)

Record ActorProxy : Type := {
  actorName : string;
  actorId : string
}.

Section Client.
Context {platform : Platform} {CW : Type}.

(** The global [fetch] of the client: whatever carries the request to
    the actor and brings a response back (or fails). *)
Variable transport : Request -> M CW Response.

(** [private async callMethod(method, params?)]; the request carries the
    path the URL parser makes of the template. *)
Definition callMethod (this : ActorProxy) (method : string)
    (params : option (list JsValue)) : M CW JsValue :=
  let* response :=
    transport
      {| pathname :=
           urlPathname ("/actors/" +:+ actorName this +:+ "/" +:+ actorId this +:+ "/rpc");
         http_method := "POST";
         req_body :=
           JSON_stringify
             (JObj [("method", JStr method);
                    ("params", JArr (default [] params))]) |} in
  if negb (ok response) then
    throw (TransportError (status response) (statusText response))
  else
    let* result := body_json (resp_body response) in
    let* error := lift (get_prop result "error") in
    if truthy error then
      let* shown := lift (ToString error) in
      throw (RemoteError shown)
    else lift (get_prop result "result").

(** [async ping(timezone?)] *)
Definition proxy_ping (this : ActorProxy) (timezone : option string) : M CW JsValue :=
  callMethod this "ping"
    (Some (match timezone with
           | Some tz => if truthy (JStr tz) then [JStr tz] else []
           | None => []
           end)).

(** [async getState()] *)
Definition proxy_getState (this : ActorProxy) : M CW JsValue :=
  callMethod this "getState" (Some []).

(** [async addMessage(message)] *)
Definition proxy_addMessage (this : ActorProxy) (message : string) : M CW JsValue :=
  callMethod this "addMessage" (Some [JStr message]).
End Client.

(** [createActor(actorName, actorId)] *)
Definition createActor (actorName actorId : string) : ActorProxy :=
  {| actorName := actorName; actorId := actorId |}.

(** ** A stand-in platform

    Used to run the model on closed inputs: the clock ticks once per
    reading, dates print as their millisecond count, ["UTC"] is the only
    time zone known, numbers print in decimal and every path is returned
    as it is written. *)
Definition test_platform : Platform :=
  {| clock := fun k => Z.of_nat k;
     toISOString := fun ms => pretty ms;
     toLocaleString := fun ms tz => if String.eqb tz "UTC" then Some (pretty ms) else None;
     dateToString := fun ms => pretty ms;
     numberToString := fun n => pretty n;
     urlPathname := fun path => path;
     urlPathname_plain := fun path _ => eq_refl |}.

(** Instance 0 of [AgentObject] on that platform, and its entry point. *)
Definition test_instance : Instance World :=
  AgentObject.instance (platform := test_platform) 0.

Definition test_fetch (request : Request) : World -> Response * World :=
  fetch (platform := test_platform) AgentObject.registry test_instance request.

(** An RPC request as the client proxy addresses it. *)
Definition rpc_request (body : Body) : Request :=
  {| pathname := "/actors/agent-object/session-12345/rpc";
     http_method := "POST";
     req_body := body |}.

(** ** Two classes in a hierarchy

    An input for the decorator and the dispatcher other than [AgentObject]:

    [class Base { @callable() p() {...}  q() {...} }] and
    [class Sub extends Base { @callable() q() {...} }],

    where the world counts the runs of [Base]'s [q]. *)
Module Hierarchy.
Definition Base_prototype : Obj := [1].
Definition Sub_prototype : Obj := 2 :: Base_prototype.

Definition Base_p (args : list JsValue) : M nat JsValue := ret (JStr "p of Base").
Definition Base_q (args : list JsValue) : M nat JsValue :=
  fun runs => (inr (JStr "q of Base"), S runs).

(** [new Base()] *)
Definition Base_instance : Instance nat :=
  {| inst_object := 0 :: Base_prototype;
     member := fun m => if String.eqb m "p" then Some Base_p
                        else if String.eqb m "q" then Some Base_q
                        else None |}.

(** The decorations, in program order. *)
Definition decorations : list Registration :=
  [ {| reg_target := Base_prototype; reg_key := "p"; reg_descriptor := 0 |};
    {| reg_target := Sub_prototype; reg_key := "q"; reg_descriptor := 1 |} ].
End Hierarchy.

(** ** Vocabulary of the statements

    Names for what the properties below speak about; none of them is part
    of the program. *)

(** Every array reference held by an object points into the heap. *)
Definition store_wf (st : MetaStore) : Prop :=
  forall o ref, own st !! o = Some ref -> (ref < length (arrays st))%nat.

(** No decorator application on a proper ancestor or a proper descendant of
    [target]. *)
Definition registrations_apart (rs : list Registration) (target : Obj) : Prop :=
  forall r, In r rs ->
    on_chain_of (reg_target r) target \/ on_chain_of target (reg_target r) ->
    reg_target r = target.

(** A name the URL parser leaves as it is inside a path: letters, digits,
    [-], [_] and [/] only. *)
Definition url_safe (name : string) : bool := all_chars is_path_char name.

(** The response of the [catch] branch of [fetch]. *)
Definition error_response (e : JsError) : Response :=
  {| status := 500; statusText := ""; resp_body := JsonText (JObj [("error", JStr (message e))]) |}.

(** The response of the [try] branch, for a result that [JSON.stringify]
    keeps. *)
Definition result_response (doc : JsValue) : Response :=
  {| status := 200; statusText := ""; resp_body := JsonText (JObj [("result", doc)]) |}.

(** Whether the JSON document of a body has a field named [k]. *)
Definition has_field (k : string) (b : Body) : bool :=
  match b with
  | JsonText (JObj fields) => existsb (fun kv => String.eqb k (fst kv)) fields
  | _ => false
  end.

(** A response the transport may bring back: status 200 and a body whose
    [error] field is the empty string. *)
Definition empty_error_response : Response :=
  {| status := 200; statusText := "OK"; resp_body := JsonText (JObj [("error", JStr "")]) |}.

(** What [this.storage.raw?.get("state")] reads. *)
Definition persisted (w : World) : option AgentState :=
  match raw w with
  | Some store => store !! "state"
  | None => None
  end.

(** The calls a client can make, run one after the other. *)
Inductive Call : Type :=
  | CallPing (args : list JsValue)
  | CallGetState (args : list JsValue)
  | CallAddMessage (args : list JsValue).

(** Whether a call gets as far as replacing the state: [getState] never
    does, and the two others do unless the conversion of their first
    argument to a string throws. *)
Definition takes_effect (c : Call) : bool :=
  match c with
  | CallGetState _ => false
  | CallPing args | CallAddMessage args => negb (to_string_throws (nth 0 args JUndefined))
  end.

Section Vocabulary.
Context {platform : Platform}.

(** The error a request body runs into before any method is looked up:
    the body is not JSON, it is [null], or what it names as method is not a
    string (and then the error is the one its conversion throws, if it
    throws). *)
Definition body_rejection (b : Body) : option JsError :=
  match b with
  | PlainText _ => Some not_json
  | JsonText JUndefined => Some (cannot_destructure JUndefined)
  | JsonText JNull => Some (cannot_destructure JNull)
  | JsonText doc =>
      match read_field doc "method" with
      | JStr _ => None
      | v =>
          match ToString v with
          | inr shown => Some (NotCallableError shown)
          | inl e => Some e
          end
      end
  end.

(** The request [callMethod] sends. *)
Definition proxy_request (this : ActorProxy) (method : string)
    (params : option (list JsValue)) : Request :=
  {| pathname :=
       urlPathname ("/actors/" +:+ actorName this +:+ "/" +:+ actorId this +:+ "/rpc");
     http_method := "POST";
     req_body :=
       JSON_stringify
         (JObj [("method", JStr method); ("params", JArr (default [] params))]) |}.

(** A transport that hands the request to the entry point of the instance
    and brings its response back; the world is the actor's. *)
Definition routed {W : Type} (st : MetaStore) (this : Instance W) (request : Request)
    : M W Response :=
  fun w => let (response, w') := fetch st this request w in (inr response, w').

(** The log entries the two methods append. *)
Definition ping_entry (timezone : JsValue) (stamp : Z) : string :=
  "ping " +:+ js_to_string (js_or timezone (JStr "default")) +:+ " at " +:+ toISOString stamp.

Definition message_entry (message : JsValue) (stamp : Z) : string :=
  js_to_string message +:+ " at " +:+ toISOString stamp.

(** The state [ping] and [addMessage] compute from the state they find. *)
Definition ping_state (args : list JsValue) (w : World) : AgentState :=
  {| counter := (counter (state w) + 1)%Z;
     messages := slice_last 10 (messages (state w) ++
                   [ping_entry (nth 0 args JUndefined) (clock (S (ticks w)))]);
     lastUpdated := Some (clock (ticks w)) |}.

Definition addMessage_state (args : list JsValue) (w : World) : AgentState :=
  {| counter := counter (state w);
     messages := slice_last 10 (messages (state w) ++
                   [message_entry (nth 0 args JUndefined) (clock (ticks w))]);
     lastUpdated := lastUpdated (state w) |}.

Definition run_call (w : World) (c : Call) : World :=
  match c with
  | CallPing args => snd (AgentObject.ping args w)
  | CallGetState args => snd (AgentObject.getState args w)
  | CallAddMessage args => snd (AgentObject.addMessage args w)
  end.

Definition run_calls (cs : list Call) (w : World) : World := fold_left run_call cs w.

(** [addMessage] called once per element of [ms], in order. *)
Definition add_all (ms : list JsValue) (w : World) : World :=
  fold_left (fun w m => snd (AgentObject.addMessage [m] w)) ms w.

(** The entries those calls write, the first one stamped with clock
    reading number [tick]. *)
Fixpoint entries (ms : list JsValue) (tick : nat) : list string :=
  match ms with
  | [] => []
  | m :: rest => message_entry m (clock tick) :: entries rest (S tick)
  end.

End Vocabulary.

(** ** Vocabulary of the further statements *)

(** The entry one application of the decorator pushes. *)
Definition entry_of (r : Registration) : MethodMetadata :=
  {| name := reg_key r; descriptor := reg_descriptor r |}.

(** The fallback response of [fetch]. *)
Definition hello_response : Response :=
  {| status := 200; statusText := ""; resp_body := PlainText "Hello from Actor!" |}.

Section FurtherVocabulary.
Context {platform : Platform}.

(** The arguments as they arrive after the trip through
    [JSON.stringify] and [request.json()]. *)
Definition wire_args (args : list JsValue) : list JsValue :=
  map (fun x => default JNull (jsonify x)) args.

(** A returned value as it arrives at the client: what [JSON.stringify]
    keeps of it, [undefined] when it drops the [result] field. *)
Definition wire_result (v : JsValue) : JsValue := default JUndefined (jsonify v).
End FurtherVocabulary.

(** How many times a call reads the clock: none when the conversion of
    its argument throws; otherwise [ping] twice, and a third time when it is
    given a truthy time zone, and [addMessage] once. *)
Definition call_ticks (c : Call) : nat :=
  match c with
  | CallPing args =>
      if to_string_throws (nth 0 args JUndefined) then 0
      else if truthy (nth 0 args JUndefined) then 3 else 2
  | CallGetState _ => 0
  | CallAddMessage args => if to_string_throws (nth 0 args JUndefined) then 0 else 1
  end.

Definition is_ping (c : Call) : bool :=
  match c with
  | CallPing _ => true
  | _ => false
  end.

Section CallVocabulary.
Context {platform : Platform}.

(** The log entry a call writes when it starts at clock reading number
    [tick], if it writes one. *)
Definition call_entry (c : Call) (tick : nat) : list string :=
  if takes_effect c then
    match c with
    | CallPing args => [ping_entry (nth 0 args JUndefined) (clock (S tick))]
    | CallGetState _ => []
    | CallAddMessage args => [message_entry (nth 0 args JUndefined) (clock tick)]
    end
  else [].

(** The log entries a run of calls writes, the first call starting at
    clock reading number [tick]. *)
Fixpoint call_entries (cs : list Call) (tick : nat) : list string :=
  match cs with
  | [] => []
  | c :: rest => call_entry c tick ++ call_entries rest (tick + call_ticks c)
  end.
End CallVocabulary.

(** ** The worker: the handlers of [defineApp] in [src/worker.tsx]

    A request goes through the handlers in order until one of them returns
    a response: the common headers, the session loader, the route of
    [/actors/*] to the durable objects, and the rendered pages. *)

(** [s.split(sep)] for a one-character separator. *)
Fixpoint split (sep : Ascii.ascii) (s : string) : list string :=
  match s with
  | EmptyString => [EmptyString]
  | String c rest =>
      if Ascii.eqb c sep then EmptyString :: split sep rest
      else match split sep rest with
           | first :: others => String c first :: others
           | [] => [String c EmptyString]
           end
  end.

(** One durable object of the [AgentObject] binding: the in-memory state
    of its instance and its storage. *)
Record Actor : Type := {
  memory : AgentState;
  storage : gmap string AgentState
}.

(** An object that was never addressed is constructed on first use, with
    the initial state and an empty storage. *)
Definition new_actor : Actor := {| memory := initialState; storage := ∅ |}.

(** The deployment: the durable objects by identifier, and the console
    and the clock the isolate shares. *)
Record Cloud : Type := {
  actors : gmap nat Actor;
  cloud_console : list (list JsValue);
  cloud_ticks : nat
}.

Definition actor_at (sys : Cloud) (id : nat) : Actor :=
  default new_actor (actors sys !! id).

(** The world the instance [id] runs in. *)
Definition world_of (sys : Cloud) (id : nat) : World :=
  {| state := memory (actor_at sys id);
     raw := Some (storage (actor_at sys id));
     console := cloud_console sys;
     ticks := cloud_ticks sys |}.

(** The deployment once the instance [id] has run and left [w]. *)
Definition store_back (sys : Cloud) (id : nat) (w : World) : Cloud :=
  {| actors :=
       <[id := {| memory := state w;
                  storage := match raw w with
                             | Some store => store
                             | None => storage (actor_at sys id)
                             end |}]> (actors sys);
     cloud_console := console w;
     cloud_ticks := ticks w |}.

(** What [sessions.load(request)] comes to: the [userId] of the session it
    returns ([undefined] when it returns none), an [ErrorResponse] with
    code 401, or any other error. *)
Inductive SessionLoad : Type :=
  | SessionLoaded (userId : JsValue)
  | SessionUnauthorized
  | SessionFailed (error : JsError).

(** What the worker imports and this repository's sources do not show: the
    handler [setCommonHeaders()] returns, the database and the session
    store, the pages [render] serves, and what the runtime answers when a
    handler throws. *)
Record Collaborators : Type := {
  setCommonHeaders : Request -> M Cloud (option Response);
  setupDb : M Cloud unit;
  setupSessionStore : M Cloud unit;
  sessions_load : Request -> Cloud -> SessionLoad * Cloud;
  sessions_remove : Request -> M Cloud unit;
  db_user_findUnique : JsValue -> M Cloud unit;
  render_routes : Request -> M Cloud Response;
  uncaught : JsError -> Response
}.

Section Worker.
Context {platform : Platform}.

(** [env.AgentObject.idFromName]: the identifier the platform derives from
    a name. *)
Variable idFromName : string -> nat.
Variable app : Collaborators.

(** The session loader; [None] when it returns nothing and the request
    goes on to the next handler.  The [Location] header of its redirect is
    not part of a [Response] here. *)
Definition session_handler (request : Request) : M Cloud (option Response) :=
  setupDb app ;;
  setupSessionStore app ;;
  fun sys =>
    match sessions_load app request sys with
    | (SessionLoaded userId, sys') =>
        (if truthy userId then db_user_findUnique app userId ;; ret None
         else ret None) sys'
    | (SessionUnauthorized, sys') =>
        (sessions_remove app request ;;
         ret (Some (new_Response (PlainText "") (Some 302%Z)))) sys'
    | (SessionFailed error, sys') => (inl error, sys')
    end.

(** The two handlers a request meets before the actor route. *)
Definition before_route (request : Request) : M Cloud (option Response) :=
  let* answered := setCommonHeaders app request in
  match answered with
  | Some response => ret (Some response)
  | None => session_handler request
  end.

(** [env.AgentObject.get(id).fetch(request)] *)
Definition stub_fetch (id : nat) (request : Request) (sys : Cloud) : Response * Cloud :=
  let (response, w) :=
    fetch AgentObject.registry (AgentObject.instance id) request (world_of sys id) in
  (response, store_back sys id w).

(** [new Response("Actor not found", { status: 404 })] *)
Definition actor_not_found : Response :=
  new_Response (PlainText "Actor not found") (Some 404%Z).

(** The actor route; [None] when it returns nothing and the request goes on
    to the next handler. *)
Definition actor_route (request : Request) (sys : Cloud) : option Response * Cloud :=
  if String.prefix "/actors/" (pathname request) then
    let pathParts := split slash (pathname request) in
    if (4 <=? length pathParts)%nat then
      match pathParts !! 2%nat, pathParts !! 3%nat with
      | Some actorName, Some actorId =>
          if String.eqb actorName "agent-object" then
            let (response, sys') := stub_fetch (idFromName actorId) request sys in
            (Some response, sys')
          else (Some actor_not_found, sys)
      | _, _ => (Some actor_not_found, sys)
      end
    else (Some actor_not_found, sys)
  else (None, sys).

(** The application [defineApp] builds. *)
Definition app_fetch (request : Request) : M Cloud Response :=
  let* answered := before_route request in
  match answered with
  | Some response => ret response
  | None =>
      fun sys =>
        match actor_route request sys with
        | (Some response, sys') => (inr response, sys')
        | (None, sys') => render_routes app request sys'
        end
  end.

(** The client's [fetch] when the page is served by this worker. *)
Definition via_worker (request : Request) : M Cloud Response :=
  fun sys =>
    match app_fetch request sys with
    | (inl error, sys') => (inr (uncaught app error), sys')
    | answer => answer
    end.
End Worker.

(** The part of [s] before its first [/], all of it when it has none:
    element 0 of [s.split("/")]. *)
Fixpoint first_segment (s : string) : string :=
  match s with
  | EmptyString => EmptyString
  | String c rest =>
      if Ascii.eqb c slash then EmptyString else String c (first_segment rest)
  end.

Section WireVocabulary.
Context {platform : Platform}.

(** An [AgentState] as it arrives at the client: the date as its ISO
    string. *)
Definition wire_state (s : AgentState) : JsValue :=
  JObj [("counter", JNum (counter s));
        ("messages", JArr (map JStr (messages s)));
        ("lastUpdated", match lastUpdated s with
                        | Some ms => JStr (toISOString ms)
                        | None => JNull
                        end)].
End WireVocabulary.

(** ** The page: [Home] and its handlers ([src/app/pages/Home.tsx]) *)

(** The five [useState] cells of the component.  [ui_response] is declared
    a string but receives whatever a call returns. *)
Record HomeState : Type := {
  ui_response : JsValue;
  ui_state : JsValue;
  ui_isLoading : bool;
  ui_timezone : string;
  ui_message : string
}.

(** The cells as [useState] initialises them. *)
Definition initial_home : HomeState :=
  {| ui_response := JStr ""; ui_state := JNull; ui_isLoading := false;
     ui_timezone := ""; ui_message := "" |}.

Definition setResponse (v : JsValue) (h : HomeState) : HomeState :=
  {| ui_response := v; ui_state := ui_state h; ui_isLoading := ui_isLoading h;
     ui_timezone := ui_timezone h; ui_message := ui_message h |}.
Definition setState (v : JsValue) (h : HomeState) : HomeState :=
  {| ui_response := ui_response h; ui_state := v; ui_isLoading := ui_isLoading h;
     ui_timezone := ui_timezone h; ui_message := ui_message h |}.
Definition setIsLoading (b : bool) (h : HomeState) : HomeState :=
  {| ui_response := ui_response h; ui_state := ui_state h; ui_isLoading := b;
     ui_timezone := ui_timezone h; ui_message := ui_message h |}.
Definition setTimezone (s : string) (h : HomeState) : HomeState :=
  {| ui_response := ui_response h; ui_state := ui_state h; ui_isLoading := ui_isLoading h;
     ui_timezone := s; ui_message := ui_message h |}.
Definition setMessage (s : string) (h : HomeState) : HomeState :=
  {| ui_response := ui_response h; ui_state := ui_state h; ui_isLoading := ui_isLoading h;
     ui_timezone := ui_timezone h; ui_message := s |}.

(** The page in the browser: the cells, what [console.error] has printed,
    and the world behind the browser's [fetch]. *)
Record Page (CW : Type) : Type := {
  ui : HomeState;
  console_errors : list (string * JsError);
  net : CW
}.
Arguments ui {CW} _.
Arguments console_errors {CW} _.
Arguments net {CW} _.

Module Home.
Section Handlers.
Context {platform : Platform} {CW : Type}.

(** The browser's [fetch] and [String.prototype.trim]. *)
Variable transport : Request -> M CW Response.
Variable trim : string -> string.

(** A handler works on the cells and may call out and throw. *)
Definition on_ui (f : HomeState -> HomeState) : M (Page CW) unit :=
  fun p => (inr tt, {| ui := f (ui p); console_errors := console_errors p; net := net p |}).

(** [console.error(label, error)] *)
Definition console_error (label : string) (e : JsError) : M (Page CW) unit :=
  fun p => (inr tt, {| ui := ui p;
                       console_errors := console_errors p ++ [(label, e)];
                       net := net p |}).

(** A call of the proxy, run from the page. *)
Definition call (m : M CW JsValue) : M (Page CW) JsValue :=
  fun p => let (r, cw) := m (net p) in
           (r, {| ui := ui p; console_errors := console_errors p; net := cw |}).

(** [try { body } catch (error) { handler(error) } finally { cleanup }] for
    a handler and a cleanup that do not throw. *)
Definition try_catch_finally (body : M (Page CW) unit)
    (handler : JsError -> M (Page CW) unit) (cleanup : M (Page CW) unit)
    : Page CW -> Page CW :=
  fun p =>
    match body p with
    | (inr _, p') => snd (cleanup p')
    | (inl error, p') => snd (cleanup (snd (handler error p')))
    end.

(** [const actor = createActor("agent-object", "session-12345")] *)
Definition actor : ActorProxy := createActor "agent-object" "session-12345".

(** [handlePing]; the cells it reads are those of the render it was
    created in. *)
Definition handlePing (p : Page CW) : Page CW :=
  let timezone := ui_timezone (ui p) in
  try_catch_finally
    (let* result :=
       call (if truthy (JStr timezone)
             then proxy_ping transport actor (Some timezone)
             else proxy_ping transport actor None) in
     on_ui (setResponse result))
    (fun error =>
       console_error "Error calling ping:" error ;;
       on_ui (setResponse (JStr ("Error calling ping method: " +:+ message error))))
    (on_ui (setIsLoading false))
    (snd (on_ui (setIsLoading true) p)).

(** [handleGetState] *)
Definition handleGetState (p : Page CW) : Page CW :=
  try_catch_finally
    (let* result := call (proxy_getState transport actor) in
     on_ui (setState result) ;;
     let* counter := lift (get_prop result "counter") in
     let* shown := lift (ToString counter) in
     on_ui (setResponse (JStr ("State retrieved (counter: " +:+ shown +:+ ")"))))
    (fun error =>
       console_error "Error getting state:" error ;;
       on_ui (setResponse (JStr ("Error getting state: " +:+ message error))))
    (on_ui (setIsLoading false))
    (snd (on_ui (setIsLoading true) p)).

(** [handleAddMessage] *)
Definition handleAddMessage (p : Page CW) : Page CW :=
  let message_text := ui_message (ui p) in
  if negb (truthy (JStr (trim message_text))) then
    snd (on_ui (setResponse (JStr "Please enter a message")) p)
  else
    try_catch_finally
      (let* result := call (proxy_addMessage transport actor message_text) in
       on_ui (setResponse result) ;;
       on_ui (setMessage ""))
      (fun error =>
         console_error "Error adding message:" error ;;
         on_ui (setResponse (JStr ("Error adding message: " +:+ message error))))
      (on_ui (setIsLoading false))
      (snd (on_ui (setIsLoading true) p)).
End Handlers.
End Home.

(** The call [handlePing] makes. *)
Definition ping_call {platform : Platform} {CW : Type}
    (transport : Request -> M CW Response) (timezone : string) : M CW JsValue :=
  if truthy (JStr timezone)
  then proxy_ping transport Home.actor (Some timezone)
  else proxy_ping transport Home.actor None.

(** A stand-in for [String.prototype.trim] on closed inputs: it removes
    the spaces at both ends. *)
Fixpoint trim_start (s : string) : string :=
  match s with
  | String c rest => if Ascii.eqb c (Ascii.ascii_of_nat 32) then trim_start rest else s
  | EmptyString => EmptyString
  end.

Fixpoint reverse_onto (s acc : string) : string :=
  match s with
  | EmptyString => acc
  | String c rest => reverse_onto rest (String c acc)
  end.

Definition test_trim (s : string) : string :=
  reverse_onto (trim_start (reverse_onto (trim_start s) "")) "".

(** Stand-ins for the collaborators of the worker on closed inputs: no
    common header answers a request, every request carries a session
    without a user, the pages are not JSON, and an error that escapes a
    handler is answered with status 500. *)
Definition test_app : Collaborators :=
  {| setCommonHeaders := fun _ => ret None;
     setupDb := ret tt;
     setupSessionStore := ret tt;
     sessions_load := fun _ sys => (SessionLoaded JUndefined, sys);
     sessions_remove := fun _ => ret tt;
     db_user_findUnique := fun _ => ret tt;
     render_routes := fun _ => ret (new_Response (PlainText "<!DOCTYPE html>") None);
     uncaught := fun _ => new_Response (PlainText "Internal Server Error") (Some 500%Z) |}.

(** An empty deployment, and a page freshly rendered in front of it. *)
Definition empty_cloud : Cloud :=
  {| actors := ∅; cloud_console := []; cloud_ticks := 0 |}.

Definition fresh_page {CW : Type} (cw : CW) : Page CW :=
  {| ui := initial_home; console_errors := []; net := cw |}.

(** * Properties *)

(** ** The registry *)

Lemma getMetadata_own st target ref :
  own st !! target = Some ref -> getMetadata st target = Some ref.
Proof. intros H. destruct target; cbn [getMetadata]; rewrite H; reflexivity. Qed.

Lemma getMetadata_None_own st target :
  getMetadata st target = None -> own st !! target = None.
Proof.
  destruct target; cbn [getMetadata]; destruct (own st !! _) eqn:E; congruence.
Qed.

(** The array [getMetadata] finds is defined on the target or on an object
    up its prototype chain. *)
Lemma getMetadata_holder st target ref :
  getMetadata st target = Some ref ->
  exists o, on_chain_of o target /\ own st !! o = Some ref.
Proof.
  induction target as [ | tag proto IH ]; cbn [getMetadata].
  - destruct (own st !! _) eqn:E; [ | discriminate ].
    intros [= <-]. exists []. split; [ exists []; reflexivity | exact E ].
  - destruct (own st !! _) eqn:E.
    + intros [= <-]. exists (tag :: proto). split; [ exists []; reflexivity | exact E ].
    + intros H. destruct (IH H) as (o & [up ->] & Ho).
      exists o. split; [ exists (tag :: up); reflexivity | exact Ho ].
Qed.

(** An object without an array of its own answers as its prototype does. *)
Lemma getMetadata_inherit st tag proto :
  own st !! (tag :: proto) = None ->
  getMetadata st (tag :: proto) = getMetadata st proto.
Proof. intros H. cbn [getMetadata]. rewrite H. reflexivity. Qed.

(** What one application of the decorator does to the store. *)
Lemma callable_spec target key d st :
  store_wf st ->
  exists ref,
    own (callable target key d st) = <[target := ref]> (own st) /\
    (forall r, deref (callable target key d st) r =
               if decide (r = ref)
               then deref st ref ++ [{| name := key; descriptor := d |}]
               else deref st r) /\
    (getMetadata st target = Some ref \/
     (getMetadata st target = None /\ ref = length (arrays st))) /\
    store_wf (callable target key d st).
Proof.
  intros Hwf. unfold callable.
  destruct (getMetadata st target) as [ref | ] eqn:Hget.
  - destruct (getMetadata_holder _ _ _ Hget) as (o & _ & Ho).
    pose proof (Hwf _ _ Ho) as Hlt.
    exists ref. repeat split; simpl; auto.
    + intros r. unfold deref at 1. simpl. case_decide as Hr.
      * subst r. rewrite list_lookup_insert_eq by exact Hlt. reflexivity.
      * rewrite list_lookup_insert_ne by congruence. reflexivity.
    + intros o' r'. simpl. rewrite length_insert, lookup_insert.
      case_decide; [ intros [= <-]; exact Hlt | apply Hwf ].
  - exists (length (arrays st)). repeat split; simpl; auto.
    + intros r. unfold deref. simpl. case_decide as Hr.
      * subst r. rewrite lookup_app_r by lia. rewrite Nat.sub_diag. simpl.
        rewrite lookup_ge_None_2 by lia. reflexivity.
      * destruct (decide (r < length (arrays st))%nat) as [Hlt | Hge].
        -- rewrite lookup_app_l by exact Hlt. reflexivity.
        -- rewrite !lookup_ge_None_2; [ reflexivity | lia | ].
           rewrite length_app. simpl. lia.
    + intros o' r'. simpl. rewrite length_app, lookup_insert. simpl.
      case_decide; [ intros [= <-]; lia | ].
      intros H'. apply Hwf in H'. lia.
Qed.

Lemma decorate_all_snoc rs r st :
  decorate_all (rs ++ [r]) st = decorate (decorate_all rs st) r.
Proof. unfold decorate_all. rewrite fold_left_app. reflexivity. Qed.

Lemma decorate_all_wf rs : store_wf (decorate_all rs empty_store).
Proof.
  induction rs as [ | r rs IH ] using rev_ind.
  - intros o ref. simpl. rewrite lookup_empty. discriminate.
  - rewrite decorate_all_snoc. unfold decorate.
    destruct (callable_spec (reg_target r) (reg_key r) (reg_descriptor r) _ IH)
      as (ref & _ & _ & _ & Hwf).
    exact Hwf.
Qed.

Lemma registered_on_snoc rs r target m :
  registered_on (rs ++ [r]) target m <->
  registered_on rs target m \/ (reg_target r = target /\ reg_key r = m).
Proof.
  unfold registered_on. split.
  - intros (r' & Hin & Ht & Hk). apply in_app_or in Hin as [Hin | [<- | []]].
    + left. eauto.
    + right. auto.
  - intros [(r' & Hin & Ht & Hk) | [Ht Hk]].
    + exists r'. split; [ apply in_or_app; auto | auto ].
    + exists r. split; [ apply in_or_app; right; left; reflexivity | auto ].
Qed.

Lemma isCallableMethod_spec st target m :
  isCallableMethod st target (JStr m) = true <->
  exists e, In e (getCallableMethods st target) /\ name e = m.
Proof.
  unfold isCallableMethod. rewrite existsb_exists.
  split; intros (e & Hin & He); exists e; split; auto; simpl in *.
  - apply String.eqb_eq. exact He.
  - apply String.eqb_eq. exact He.
Qed.

(** A name registered on an object stays in the array that object holds. *)
Lemma registered_on_held rs target m :
  registered_on rs target m ->
  exists ref e, own (decorate_all rs empty_store) !! target = Some ref /\
                In e (deref (decorate_all rs empty_store) ref) /\ name e = m.
Proof.
  induction rs as [ | r rs IH ] using rev_ind.
  - intros (r & [] & _).
  - rewrite registered_on_snoc, decorate_all_snoc. unfold decorate.
    pose proof (decorate_all_wf rs) as Hwf.
    destruct (callable_spec (reg_target r) (reg_key r) (reg_descriptor r) _ Hwf)
      as (ref & Hown & Hderef & Hget & _).
    intros [Hold | [Ht Hk]].
    + destruct (IH Hold) as (ref0 & e & Hown0 & Hin & He).
      exists ref0, e. rewrite Hown, Hderef. repeat split; auto.
      * rewrite lookup_insert. case_decide as Heq; [ | exact Hown0 ].
        subst target. f_equal.
        apply getMetadata_own in Hown0.
        destruct Hget as [Hget | [Hget _]]; congruence.
      * case_decide; [ subst; apply in_or_app; left; exact Hin | exact Hin ].
    + exists ref, {| name := reg_key r; descriptor := reg_descriptor r |}.
      rewrite Hown, Hderef. subst target. rewrite lookup_insert_eq.
      repeat split; auto.
      rewrite decide_True by reflexivity. apply in_or_app. right. left. reflexivity.
Qed.

(** Every entry of every array was put there by an application of the
    decorator. *)
Lemma deref_registered rs ref e :
  In e (deref (decorate_all rs empty_store) ref) ->
  exists target, registered_on rs target (name e).
Proof.
  revert ref e. induction rs as [ | r rs IH ] using rev_ind; intros ref e.
  - unfold deref. simpl. intros [].
  - rewrite decorate_all_snoc. unfold decorate.
    pose proof (decorate_all_wf rs) as Hwf.
    destruct (callable_spec (reg_target r) (reg_key r) (reg_descriptor r) _ Hwf)
      as (ref' & _ & Hderef & _ & _).
    rewrite Hderef. intros Hin.
    assert (In e (deref (decorate_all rs empty_store) ref) \/
            In e (deref (decorate_all rs empty_store) ref') \/
            e = {| name := reg_key r; descriptor := reg_descriptor r |}) as Hcases.
    { case_decide; [ | auto ].
      apply in_app_or in Hin as [Hin | [<- | []]]; auto. }
    destruct Hcases as [Hin' | [Hin' | ->]].
    + destruct (IH _ _ Hin') as (t & Ht). exists t.
      apply registered_on_snoc. auto.
    + destruct (IH _ _ Hin') as (t & Ht). exists t.
      apply registered_on_snoc. auto.
    + exists (reg_target r). apply registered_on_snoc. right. auto.
Qed.

(** Only objects the decorator was applied to hold an array of their own. *)
Lemma own_registered rs o ref :
  own (decorate_all rs empty_store) !! o = Some ref ->
  exists r, In r rs /\ reg_target r = o.
Proof.
  induction rs as [ | r rs IH ] using rev_ind.
  - simpl. rewrite lookup_empty. discriminate.
  - rewrite decorate_all_snoc. unfold decorate.
    destruct (callable_spec (reg_target r) (reg_key r) (reg_descriptor r) _
                (decorate_all_wf rs)) as (ref' & Hown & _).
    rewrite Hown, lookup_insert. case_decide as Heq.
    + intros _. exists r. split; [ apply in_or_app; right; left; reflexivity | exact Heq ].
    + intros H. destruct (IH H) as (r' & Hin & Ht).
      exists r'. split; [ apply in_or_app; left; exact Hin | exact Ht ].
Qed.

Lemma registrations_apart_snoc rs r target :
  registrations_apart (rs ++ [r]) target ->
  registrations_apart rs target /\
  (on_chain_of (reg_target r) target \/ on_chain_of target (reg_target r) ->
   reg_target r = target).
Proof.
  intros H. split.
  - intros r' Hin. apply H. apply in_or_app. left. exact Hin.
  - apply H. apply in_or_app. right. left. reflexivity.
Qed.

(** When the registrations keep apart from [target], the array [target]
    holds is held by no other object and lists the names registered on
    [target] only. *)
Lemma apart_private_array rs target :
  registrations_apart rs target ->
  let st := decorate_all rs empty_store in
  (forall o ref, own st !! target = Some ref -> own st !! o = Some ref -> o = target) /\
  (forall ref e, own st !! target = Some ref -> In e (deref st ref) ->
                 registered_on rs target (name e)).
Proof.
  induction rs as [ | r rs IH ] using rev_ind; intros Hapart st.
  - subst st. simpl. split; intros ? ?; rewrite lookup_empty; discriminate.
  - apply registrations_apart_snoc in Hapart as [Hrs Hr].
    destruct (IH Hrs) as [Hpriv Hnames]. clear IH.
    subst st. rewrite decorate_all_snoc. unfold decorate.
    pose proof (decorate_all_wf rs) as Hwf.
    set (st := decorate_all rs empty_store) in *.
    destruct (callable_spec (reg_target r) (reg_key r) (reg_descriptor r) _ Hwf)
      as (ref' & Hown & Hderef & Hget & _).
    (* the array the decorator pushes onto is [target]'s only if the
       decorator is applied to [target] *)
    assert (forall a, own st !! target = Some a ->
                      getMetadata st (reg_target r) = Some a ->
                      reg_target r = target) as Hsame.
    { intros a Ha Hg. apply getMetadata_holder in Hg as (o & Hchain & Ho).
      apply Hr. right. rewrite <- (Hpriv _ _ Ha Ho). exact Hchain. }
    assert (forall a, getMetadata st target = Some a -> own st !! target = Some a)
      as Hown_target.
    { intros a Hg. apply getMetadata_holder in Hg as (o & Hchain & Ho).
      destruct (own_registered _ _ _ Ho) as (r' & Hin & Ht).
      assert (o = target) as ->; [ | exact Ho ].
      rewrite <- Ht. apply Hrs; [ exact Hin | left; rewrite Ht; exact Hchain ]. }
    assert (forall a, own st !! target = Some a -> reg_target r <> target -> a <> ref')
      as Hother.
    { intros a Ha Hne ->. destruct Hget as [Hg | [_ ->]].
      - apply Hne. eapply Hsame; eauto.
      - apply Hwf in Ha. lia. }
    split.
    + intros o a. rewrite Hown, !lookup_insert.
      destruct (decide (reg_target r = target)) as [Heq | Hne].
      * intros [= <-]. case_decide as Ho; [ congruence | ].
        intros Ho'. destruct Hget as [Hg | [_ ->]].
        -- rewrite Heq in Hg. eapply Hpriv; eauto.
        -- apply Hwf in Ho'. lia.
      * intros Ha. case_decide as Ho; [ | eapply Hpriv; eauto ].
        intros [= Heq]. exfalso. eapply Hother; eauto.
    + intros a e. rewrite Hown, lookup_insert, Hderef, registered_on_snoc.
      destruct (decide (reg_target r = target)) as [Heq | Hne].
      * intros [= <-]. rewrite decide_True by reflexivity.
        intros Hin. apply in_app_or in Hin as [Hin | [<- | []]]; [ | right; auto ].
        left. destruct Hget as [Hg | [_ ->]].
        -- rewrite Heq in Hg. eapply Hnames; eauto.
        -- unfold deref in Hin. rewrite lookup_ge_None_2 in Hin by lia. destruct Hin.
      * intros Ha. rewrite decide_False by (eapply Hother; eauto).
        intros Hin. left. eapply Hnames; eauto.
Qed.

(** What [isCallableMethod] does guarantee: it answers true for every name
    registered on the class through the decorator; a class the decorator was
    never applied to answers as its parent class does, so registrations are
    inherited; it answers true only for names the decorator registered on
    some class, whatever methods the instance has (the instance's members are
    not even an input); and for a class with no decorated ancestor or
    descendant it answers true if and only if the name was registered on that
    class. *)
Theorem isCallableMethod_registered (rs : list Registration) (target : Obj) (m : string) :
  let st := decorate_all rs empty_store in
  (registered_on rs target m -> isCallableMethod st target (JStr m) = true) /\
  (forall tag, (forall k, ~ registered_on rs (tag :: target) k) ->
     isCallableMethod st (tag :: target) (JStr m) = isCallableMethod st target (JStr m)) /\
  (isCallableMethod st target (JStr m) = true -> exists c, registered_on rs c m) /\
  (registrations_apart rs target ->
     (isCallableMethod st target (JStr m) = true <-> registered_on rs target m)).
Proof.
  intros st.
  assert (registered_on rs target m -> isCallableMethod st target (JStr m) = true) as Hreg.
  { intros H. apply isCallableMethod_spec.
    destruct (registered_on_held _ _ _ H) as (ref & e & Hown & Hin & He).
    exists e. split; [ | exact He ].
    unfold getCallableMethods. fold st in Hown.
    rewrite (getMetadata_own _ _ _ Hown). exact Hin. }
  split; [ exact Hreg | ]. split; [ | split ].
  - intros tag Hnone. unfold isCallableMethod, getCallableMethods.
    rewrite getMetadata_inherit; [ reflexivity | ].
    destruct (own st !! (tag :: target)) as [ref | ] eqn:E; [ | reflexivity ].
    destruct (own_registered _ _ _ E) as (r & Hin & Ht).
    exfalso. apply (Hnone (reg_key r)). exists r. auto.
  - intros H. apply isCallableMethod_spec in H as (e & Hin & <-).
    unfold getCallableMethods in Hin.
    destruct (getMetadata st target) as [ref | ]; [ | destruct Hin ].
    eapply deref_registered. exact Hin.
  - intros Hapart. split; [ | exact Hreg ].
    intros H. apply isCallableMethod_spec in H as (e & Hin & <-).
    unfold getCallableMethods in Hin.
    destruct (getMetadata st target) as [ref | ] eqn:Hg; [ | destruct Hin ].
    destruct (apart_private_array _ _ Hapart) as [_ Hnames].
    apply (Hnames ref); [ | exact Hin ].
    apply getMetadata_holder in Hg as (o & Hchain & Ho).
    destruct (own_registered _ _ _ Ho) as (r & Hr & Ht).
    assert (o = target) as ->; [ | exact Ho ].
    rewrite <- Ht. apply Hapart; [ exact Hr | left; rewrite Ht; exact Hchain ].
Qed.

(** Registrations are inherited: a subclass the decorator was never
    applied to answers true for a name registered on its parent class. *)
Remark isCallableMethod_inherited :
  let rs := [ {| reg_target := [1]; reg_key := "p"; reg_descriptor := 0 |} ] in
  isCallableMethod (decorate_all rs empty_store) [2; 1] (JStr "p") = true /\
  ~ registered_on rs [2; 1] "p".
Proof.
  split; [ vm_compute; reflexivity | ].
  intros (r & [<- | []] & Ht & _). discriminate Ht.
Qed.

Lemma isCallableMethod_registered_witness :
  isCallableMethod AgentObject.registry AgentObject.prototype (JStr "getState") = true.
Proof.
  refine (proj1 (isCallableMethod_registered
                   AgentObject.decorations AgentObject.prototype "getState") _).
  exists {| reg_target := AgentObject.prototype; reg_key := "getState"; reg_descriptor := 1 |}.
  simpl. auto.
Defined.

(** C1 (the defect): the decorator pushes onto the array it found, which
    is the parent's when the subclass has none yet.  With [p] decorated on a
    class and then [q] decorated on a subclass of it, [isCallableMethod]
    answers true for [q] on the parent class and on an instance of the
    parent class, although [q] was registered neither on the parent class
    nor on any ancestor of it. *)
Theorem subclass_registration_reaches_parent :
  let st := decorate_all Hierarchy.decorations empty_store in
  isCallableMethod st Hierarchy.Base_prototype (JStr "q") = true /\
  isCallableMethod st (inst_object Hierarchy.Base_instance) (JStr "q") = true /\
  (forall c, on_chain_of c Hierarchy.Base_prototype ->
             ~ registered_on Hierarchy.decorations c "q").
Proof.
  split; [ vm_compute; reflexivity | ]. split; [ vm_compute; reflexivity | ].
  intros c [up Hup] (r & [<- | [<- | []]] & Ht & Hk); [ discriminate Hk | ].
  cbn in Ht. subst c.
  apply (f_equal (@length nat)) in Hup. rewrite length_app in Hup. simpl in Hup. lia.
Qed.

(** ** The dispatcher *)

Lemma isCallableMethod_absent st target m :
  ~ In m (map name (getCallableMethods st target)) ->
  isCallableMethod st target (JStr m) = false.
Proof.
  intros H. destruct (isCallableMethod st target (JStr m)) eqn:E; [ | reflexivity ].
  exfalso. apply H. apply isCallableMethod_spec in E as (e & Hin & <-).
  apply in_map. exact Hin.
Qed.

(** A name absent from the list the instance resolves to is rejected with
    the not-callable error whatever the parameters, and the world is
    returned untouched, whatever members the instance has. *)
Lemma dispatchRpcCall_absent {platform : Platform} {W : Type}
    (st : MetaStore) (instance : Instance W) (m : string) (params : JsValue) (w : W) :
  ~ In m (map name (getCallableMethods st (inst_object instance))) ->
  dispatchRpcCall st instance (JStr m) params w = (inl (NotCallableError m), w).
Proof.
  intros H. unfold dispatchRpcCall.
  rewrite (isCallableMethod_absent _ _ _ H). reflexivity.
Qed.

(** Scenario 2 of the specification: [dangerousMethod] exists on the
    instance, is not registered, and a dispatch of it changes nothing. *)
Example scenario_dangerousMethod :
  AgentObject.methods (platform := test_platform) "dangerousMethod"
    = Some AgentObject.dangerousMethod /\
  dispatchRpcCall (platform := test_platform) AgentObject.registry
    test_instance (JStr "dangerousMethod") (JArr [])
    (AgentObject.fresh (Some ∅))
  = (inl (NotCallableError "dangerousMethod"), AgentObject.fresh (Some ∅)).
Proof.
  split; [ reflexivity | ].
  apply (dispatchRpcCall_absent (platform := test_platform)).
  vm_compute. intros [H | [H | [H | []]]]; discriminate H.
Qed.

(** C2 (the defect): on the same two classes, a dispatch of [q] to an
    instance of the parent class, where [q] is not decorated, is let
    through: the body of the parent's [q] runs and the world is changed. *)
Theorem dispatchRpcCall_runs_undecorated :
  let st := decorate_all Hierarchy.decorations empty_store in
  member Hierarchy.Base_instance "q" = Some Hierarchy.Base_q /\
  (forall c, on_chain_of c Hierarchy.Base_prototype ->
             ~ registered_on Hierarchy.decorations c "q") /\
  dispatchRpcCall (platform := test_platform) st Hierarchy.Base_instance
    (JStr "q") (JArr []) 0
  = (inr (JStr "q of Base"), 1).
Proof.
  split; [ reflexivity | ]. split; [ | vm_compute; reflexivity ].
  intros c [up Hup] (r & [<- | [<- | []]] & Ht & Hk); [ discriminate Hk | ].
  cbn in Ht. subst c.
  apply (f_equal (@length nat)) in Hup. rewrite length_app in Hup. simpl in Hup. lia.
Qed.

(** The registry of [AgentObject], seen from any of its instances. *)
Lemma AgentObject_callable_methods (id : nat) :
  map name (getCallableMethods AgentObject.registry (id :: AgentObject.prototype))
  = ["ping"; "getState"; "addMessage"].
Proof.
  unfold getCallableMethods.
  assert (own AgentObject.registry !! (id :: AgentObject.prototype) = None) as Hnone.
  { destruct (own AgentObject.registry !! (id :: AgentObject.prototype)) eqn:E; [ | reflexivity ].
    destruct (own_registered AgentObject.decorations _ _ E) as (r & Hin & Ht).
    exfalso. simpl in Hin. destruct Hin as [<- | [<- | [<- | []]]];
      apply (f_equal (@length nat)) in Ht; simpl in Ht; lia. }
  rewrite getMetadata_inherit by exact Hnone.
  vm_compute. reflexivity.
Qed.

Lemma isCallableMethod_not_string st target v :
  (forall s, v <> JStr s) -> isCallableMethod st target v = false.
Proof.
  intros Hv. unfold isCallableMethod.
  induction (getCallableMethods st target) as [ | e l IH ]; [ reflexivity | ].
  simpl. rewrite IH. destruct v; try reflexivity. destruct (Hv s eq_refl).
Qed.

(** No instance of [AgentObject] lets a name other than the three
    decorated ones through, [dangerousMethod] included. *)
Lemma AgentObject_rejects_undecorated {platform : Platform}
    (id : nat) (m : string) (params : JsValue) (w : World) :
  m <> "ping" -> m <> "getState" -> m <> "addMessage" ->
  dispatchRpcCall AgentObject.registry (AgentObject.instance id) (JStr m) params w
  = (inl (NotCallableError m), w).
Proof.
  intros H1 H2 H3. unfold dispatchRpcCall.
  rewrite isCallableMethod_absent; [ reflexivity | ].
  cbn [inst_object AgentObject.instance]. rewrite AgentObject_callable_methods.
  intros [H | [H | [H | []]]]; congruence.
Qed.

(** A name the decorator never registered, on any class, is let through
    by no instance. *)
Lemma dispatchRpcCall_never_registered {platform : Platform} {W : Type}
    (rs : list Registration) (instance : Instance W) (m : string)
    (params : JsValue) (w : W) :
  (forall c, ~ registered_on rs c m) ->
  dispatchRpcCall (decorate_all rs empty_store) instance (JStr m) params w
  = (inl (NotCallableError m), w).
Proof.
  intros Hnever. unfold dispatchRpcCall.
  rewrite isCallableMethod_absent; [ reflexivity | ].
  intros Hin. apply in_map_iff in Hin as (e & <- & Hin).
  unfold getCallableMethods in Hin.
  destruct (getMetadata _ _) as [ref | ]; [ | destruct Hin ].
  destruct (deref_registered _ _ _ Hin) as (c & Hc).
  exact (Hnever c Hc).
Qed.

(** ** The entry point *)

Lemma fetch_rpc {platform : Platform} {W : Type} st (this : Instance W) request w :
  is_rpc request = true ->
  fetch st this request w =
    match rpc_call st this request w with
    | (inr result, w') =>
        (new_Response (JSON_stringify (JObj [("result", result)])) None, w')
    | (inl error, w') => (error_response error, w')
    end.
Proof. intros H. unfold fetch. rewrite H. reflexivity. Qed.

(** C3 (as amended): an RPC request whose body is missing or not JSON, is
    [null], or names no string as its method is answered with status 500
    and the error envelope; the answer is the same for every registry and
    every instance and the world is unchanged, so no method is dispatched
    to. *)
Theorem fetch_malformed_body {platform : Platform} {W : Type}
    (st : MetaStore) (this : Instance W) (request : Request) (w : W) (e : JsError) :
  is_rpc request = true ->
  body_rejection (req_body request) = Some e ->
  fetch st this request w = (error_response e, w).
Proof.
  intros Hrpc Hbody. rewrite (fetch_rpc _ _ _ _ Hrpc).
  unfold rpc_call, body_rejection in *.
  destruct (req_body request) as [doc | text].
  - assert (forall method params,
              (forall s, method <> JStr s) ->
              dispatchRpcCall st this method params w
              = (match ToString method with
                 | inr shown => inl (NotCallableError shown)
                 | inl thrown => inl thrown
                 end, w)) as Hgate.
    { intros method params Hm. unfold dispatchRpcCall.
      rewrite (isCallableMethod_not_string _ _ _ Hm). cbn [negb].
      unfold bind, lift, throw. destruct (ToString method); reflexivity. }
    unfold body_json, destructure_call, bind, ret, throw.
    destruct doc as [ | | b | n | s | ms | elems | fields ];
      try (injection Hbody as <-; reflexivity);
      cbn [fst snd read_field] in *;
      try (rewrite Hgate by discriminate;
           destruct (ToString _); injection Hbody as <-; reflexivity).
    destruct (lookup_field "method" fields) eqn:Hm;
      try discriminate Hbody;
      rewrite Hgate by discriminate;
      destruct (ToString _); injection Hbody as <-; reflexivity.
  - injection Hbody as <-. reflexivity.
Qed.

Lemma fetch_malformed_body_witness :
  test_fetch (rpc_request (PlainText "{method:")) (AgentObject.fresh (Some ∅))
  = (error_response not_json, AgentObject.fresh (Some ∅)).
Proof.
  apply (fetch_malformed_body (platform := test_platform)); reflexivity.
Defined.

(** C3 (as stated) fails: a body that is not JSON is answered with the
    server-error status 500, not with a client-error status. *)
Lemma fetch_malformed_counterexample :
  let request := rpc_request (PlainText "{method:") in
  let response :=
    fst (test_fetch request (AgentObject.fresh (Some ∅))) in
  is_rpc request = true /\
  status response = 500%Z /\
  ~ (400 <= status response <= 499)%Z.
Proof. vm_compute. repeat split; try reflexivity. intros [_ H]. apply H. reflexivity. Qed.

(** A body that is JSON of the wrong shape can still reach a method: a
    string in place of the parameter array is spread into its characters. *)
Remark fetch_string_params_dispatched :
  let request :=
    rpc_request (JsonText (JObj [("method", JStr "addMessage"); ("params", JStr "hi")])) in
  let after :=
    snd (test_fetch request (AgentObject.fresh None)) in
  messages (state after) = ["h at 0"].
Proof. vm_compute. reflexivity. Qed.

Lemma lookup_field_absent k fields :
  (forall v, ~ In (k, v) fields) -> lookup_field k fields = JUndefined.
Proof.
  induction fields as [ | [k' v'] rest IH ]; intros H; [ reflexivity | ].
  simpl. destruct (String.eqb k k') eqn:E.
  - apply String.eqb_eq in E as <-. destruct (H v'). left. reflexivity.
  - apply IH. intros v Hin. apply (H v). right. exact Hin.
Qed.

(** C10: a request body that names a method and has no [params] field is
    dispatched with the empty parameter list, and the response is the
    envelope of what that dispatch gives; for a registered name the method
    itself is called with no argument. *)
Theorem fetch_params_default {platform : Platform} {W : Type}
    (st : MetaStore) (this : Instance W) (request : Request) (w : W)
    (fields : list (string * JsValue)) (m : string) :
  is_rpc request = true ->
  req_body request = JsonText (JObj fields) ->
  lookup_field "method" fields = JStr m ->
  (forall v, ~ In ("params", v) fields) ->
  rpc_call st this request w = dispatchRpcCall st this (JStr m) (JArr []) w /\
  fetch st this request w =
    match dispatchRpcCall st this (JStr m) (JArr []) w with
    | (inr result, w') =>
        (new_Response (JSON_stringify (JObj [("result", result)])) None, w')
    | (inl error, w') => (error_response error, w')
    end /\
  (forall f, isCallableMethod st (inst_object this) (JStr m) = true ->
             member this m = Some f ->
             rpc_call st this request w = f [] w).
Proof.
  intros Hrpc Hbody Hm Hp.
  assert (rpc_call st this request w = dispatchRpcCall st this (JStr m) (JArr []) w) as Hcall.
  { unfold rpc_call. rewrite Hbody.
    unfold body_json, destructure_call, bind, ret. cbn [read_field fst snd].
    rewrite Hm, (lookup_field_absent _ _ Hp). reflexivity. }
  split; [ exact Hcall | ]. split.
  - rewrite (fetch_rpc _ _ _ _ Hrpc), Hcall. reflexivity.
  - intros f Hc Hf. rewrite Hcall. unfold dispatchRpcCall.
    rewrite Hc. cbn [negb js_to_string]. rewrite Hf. reflexivity.
Qed.

Lemma fetch_params_default_witness :
  fst (test_fetch (rpc_request (JsonText (JObj [("method", JStr "ping")])))
         (AgentObject.fresh (Some ∅)))
  = result_response (JStr "pong").
Proof.
  pose proof (fetch_params_default (platform := test_platform)
                AgentObject.registry test_instance
                (rpc_request (JsonText (JObj [("method", JStr "ping")])))
                (AgentObject.fresh (Some ∅)) [("method", JStr "ping")] "ping"
                eq_refl eq_refl eq_refl) as H.
  destruct H as (_ & H & _).
  - intros v [H | []]. discriminate H.
  - unfold test_fetch. rewrite H. vm_compute. reflexivity.
Defined.

(** ** [AgentObject] *)

Section AgentObjectProperties.
Context {platform : Platform}.

(** What the methods of the class return is never [undefined]:
    [JSON.stringify] keeps the [result] field. *)
Lemma AgentObject_result_kept m f args w v w' :
  AgentObject.methods m = Some f ->
  f args w = (inr v, w') ->
  exists doc, jsonify v = Some doc.
Proof.
  unfold AgentObject.methods.
  repeat (destruct (String.eqb m _); [ intros [= <-] | ]); try discriminate.
  - unfold AgentObject.ping, bind, ret, throw, lift, ToString, js_or,
      AgentObject.console_log, AgentObject.this_state, AgentObject.new_Date,
      AgentObject.assign_state, AgentObject.storage_put.
    destruct (truthy (nth 0 args JUndefined));
      [ destruct (to_string_throws (nth 0 args JUndefined)); [ discriminate | ]
      | intros [= <- _]; eexists; reflexivity ].
    destruct (toLocaleString _ _); intros [= <- _]. eexists; reflexivity.
  - unfold AgentObject.getState, bind, ret, AgentObject.storage_get, AgentObject.this_state.
    intros [= <- _]. eexists; reflexivity.
  - unfold AgentObject.addMessage, bind, ret, throw, lift, ToString,
      AgentObject.console_log, AgentObject.this_state, AgentObject.new_Date,
      AgentObject.assign_state, AgentObject.storage_put.
    destruct (to_string_throws (nth 0 args JUndefined)); [ discriminate | ].
    intros [= <- _]. eexists; reflexivity.
  - unfold AgentObject.dangerousMethod, bind, ret, AgentObject.console_log.
    intros [= <- _]. eexists; reflexivity.
Qed.

Lemma AgentObject_dispatch_result_kept id method params w v w' :
  dispatchRpcCall AgentObject.registry (AgentObject.instance id) method params w
  = (inr v, w') ->
  exists doc, jsonify v = Some doc.
Proof.
  unfold dispatchRpcCall.
  destruct (negb (isCallableMethod _ _ method));
    [ unfold bind, lift, throw; destruct (ToString method); discriminate | ].
  cbn [member AgentObject.instance].
  destruct (AgentObject.methods (js_to_string method)) as [f | ] eqn:Hf.
  - unfold bind, lift.
    destruct (spread _) as [e | args]; [ discriminate | ].
    apply (AgentObject_result_kept _ _ _ _ _ _ Hf).
  - unfold bind, lift, throw. destruct (ToString method); discriminate.
Qed.

Lemma existsb_names (v : JsValue) (l : list MethodMetadata) :
  existsb (fun method => strict_eq_string (name method) v) l
  = existsb (fun n => strict_eq_string n v) (map name l).
Proof. induction l as [ | e l IH ]; simpl; [ | rewrite IH ]; reflexivity. Qed.

(** Which names an instance of [AgentObject] lets through. *)
Lemma AgentObject_isCallableMethod (id : nat) (m : string) :
  isCallableMethod AgentObject.registry (id :: AgentObject.prototype) (JStr m)
  = String.eqb "ping" m || String.eqb "getState" m || String.eqb "addMessage" m.
Proof.
  unfold isCallableMethod. rewrite existsb_names, AgentObject_callable_methods.
  cbn [existsb strict_eq_string]. rewrite orb_false_r, orb_assoc. reflexivity.
Qed.

(** C8: the response [AgentObject.fetch] gives to an RPC request follows
    the outcome of the call: when the call returns a value the response is
    the success envelope, status 200 and an object whose single field
    [result] is that value as JSON renders it; when the call throws the
    response is the failure envelope, status 500 and an object whose single
    field [error] is the message of what was thrown.  For a body that names
    a decorated method and gives it an array of parameters, the call is
    that method on those parameters.  So exactly one of the two fields is
    there. *)
Theorem fetch_envelope_exclusive (id : nat) (request : Request) (w : World) :
  is_rpc request = true ->
  let this := AgentObject.instance id in
  let answer := fetch AgentObject.registry this request w in
  match rpc_call AgentObject.registry this request w with
  | (inr v, w') => exists doc, jsonify v = Some doc /\ answer = (result_response doc, w')
  | (inl e, w') => answer = (error_response e, w')
  end /\
  (forall fields m f args,
     req_body request = JsonText (JObj fields) ->
     lookup_field "method" fields = JStr m ->
     lookup_field "params" fields = JArr args ->
     In m ["ping"; "getState"; "addMessage"] ->
     AgentObject.methods m = Some f ->
     rpc_call AgentObject.registry this request w = f args w) /\
  has_field "result" (resp_body (fst answer))
  = negb (has_field "error" (resp_body (fst answer))).
Proof.
  intros Hrpc this answer.
  assert (match rpc_call AgentObject.registry this request w with
          | (inr v, w') =>
              exists doc, jsonify v = Some doc /\ answer = (result_response doc, w')
          | (inl e, w') => answer = (error_response e, w')
          end) as Hshape.
  { subst answer. rewrite (fetch_rpc _ _ _ _ Hrpc).
    destruct (rpc_call AgentObject.registry this request w) as [[e | v] w'] eqn:Hcall.
    - reflexivity.
    - unfold rpc_call, bind in Hcall.
      destruct (body_json _ w) as [[e1 | body] w1]; [ discriminate | ].
      destruct (destructure_call body w1) as [[e2 | call] w2]; [ discriminate | ].
      destruct (AgentObject_dispatch_result_kept _ _ _ _ _ _ Hcall) as (doc & Hdoc).
      exists doc. split; [ exact Hdoc | ].
      unfold JSON_stringify. cbn [jsonify]. rewrite Hdoc. reflexivity. }
  split; [ exact Hshape | ]. split.
  - intros fields m f args Hbody Hm Hp Hin Hf.
    unfold rpc_call. rewrite Hbody.
    unfold body_json, destructure_call, bind, ret. cbn [read_field fst snd].
    rewrite Hm, Hp. unfold dispatchRpcCall.
    subst this. cbn [inst_object member AgentObject.instance].
    rewrite AgentObject_isCallableMethod.
    assert (String.eqb "ping" m || String.eqb "getState" m || String.eqb "addMessage" m
            = true) as ->.
    { destruct Hin as [<- | [<- | [<- | []]]]; reflexivity. }
    cbn [negb js_to_string]. rewrite Hf. reflexivity.
  - destruct (rpc_call AgentObject.registry this request w) as [[e | v] w'].
    + rewrite Hshape. reflexivity.
    + destruct Hshape as (doc & _ & ->). reflexivity.
Qed.
End AgentObjectProperties.

Lemma fetch_envelope_exclusive_witness :
  exists doc,
    jsonify (platform := test_platform)
      (JStr ("Message " +:+ dquote +:+ "hello" +:+ dquote +:+ " added successfully"))
    = Some doc /\
    test_fetch (rpc_request (JsonText (JObj [("method", JStr "addMessage");
                                             ("params", JArr [JStr "hello"])])))
      (AgentObject.fresh (Some ∅))
    = (result_response doc,
       snd (AgentObject.addMessage (platform := test_platform) [JStr "hello"]
              (AgentObject.fresh (Some ∅)))).
Proof.
  pose proof (fetch_envelope_exclusive (platform := test_platform) 0
                (rpc_request (JsonText (JObj [("method", JStr "addMessage");
                                              ("params", JArr [JStr "hello"])])))
                (AgentObject.fresh (Some ∅)) eq_refl) as (Hshape & _ & _).
  vm_compute in Hshape. vm_compute. exact Hshape.
Defined.

(** ** JSON documents *)

(** Induction over values that reaches inside arrays and objects. *)
Lemma JsValue_nested_ind (P : JsValue -> Prop) :
  P JUndefined -> P JNull ->
  (forall b, P (JBool b)) -> (forall n, P (JNum n)) ->
  (forall s, P (JStr s)) -> (forall ms, P (JDate ms)) ->
  (forall elems, Forall P elems -> P (JArr elems)) ->
  (forall fields, Forall (fun kv => P (snd kv)) fields -> P (JObj fields)) ->
  forall v, P v.
Proof.
  intros HU HN HB HZ HS HD HA HO.
  fix IH 1. intros [ | | b | n | s | ms | elems | fields ].
  - exact HU.
  - exact HN.
  - apply HB.
  - apply HZ.
  - apply HS.
  - apply HD.
  - apply HA. induction elems as [ | x xs IHxs ]; constructor; [ apply IH | exact IHxs ].
  - apply HO. induction fields as [ | [k x] xs IHxs ]; constructor; [ apply IH | exact IHxs ].
Qed.

(** A JSON-representable value survives [JSON.stringify] followed by
    [JSON.parse] unchanged. *)
Lemma jsonify_representable {platform : Platform} (v : JsValue) :
  json_representable v = true -> jsonify v = Some v.
Proof.
  induction v as [ | | b | n | s | ms | elems IH | fields IH ] using JsValue_nested_ind;
    cbn [json_representable jsonify]; try reflexivity; try discriminate.
  - intros H. do 2 f_equal.
    induction IH as [ | x xs Hx _ IHxs ]; [ reflexivity | ].
    cbn [forallb] in H. apply andb_prop in H as [H1 H2].
    rewrite (Hx H1), (IHxs H2). reflexivity.
  - intros H. do 2 f_equal.
    induction IH as [ | [k x] xs Hx _ IHxs ]; [ reflexivity | ].
    apply andb_prop in H as [H1 H2]. cbn [snd] in Hx.
    rewrite (Hx H1), (IHxs H2). reflexivity.
Qed.

(** ** The client proxy *)

Lemma substring_all (s : string) : String.substring 0 (String.length s) s = s.
Proof. induction s as [ | c s IH ]; simpl; [ reflexivity | rewrite IH; reflexivity ]. Qed.

Lemma length_append (s t : string) :
  String.length (s +:+ t) = String.length s + String.length t.
Proof. induction s as [ | c s IH ]; simpl; [ reflexivity | rewrite IH; reflexivity ]. Qed.

Lemma substring_append (s t : string) :
  String.substring (String.length s) (String.length t) (s +:+ t) = t.
Proof.
  induction s as [ | c s IH ]; simpl; [ apply substring_all | exact IH ].
Qed.

Lemma append_assoc (a b c : string) : (a +:+ b) +:+ c = a +:+ b +:+ c.
Proof.
  induction a as [ | x a IH ]; [ reflexivity | ].
  change (String x ((a +:+ b) +:+ c) = String x (a +:+ b +:+ c)).
  f_equal. exact IH.
Qed.

Lemma all_chars_append (p : Ascii.ascii -> bool) (s t : string) :
  all_chars p (s +:+ t) = all_chars p s && all_chars p t.
Proof.
  induction s as [ | c s IH ]; [ reflexivity | ].
  change (p c && all_chars p (s +:+ t) = p c && all_chars p s && all_chars p t).
  rewrite IH, andb_assoc. reflexivity.
Qed.

Lemma endsWith_append (s t : string) : endsWith (s +:+ t) t = true.
Proof.
  unfold endsWith. rewrite length_append.
  replace (String.length s + String.length t - String.length t)
    with (String.length s) by lia.
  rewrite substring_append, String.eqb_refl, andb_true_r.
  apply Nat.leb_le. lia.
Qed.

Section ClientProperties.
Context {platform : Platform}.

(** The path the proxy writes is one the URL parser leaves alone when the
    two names are. *)
Lemma proxy_pathname this method params :
  url_safe (actorName this) = true ->
  url_safe (actorId this) = true ->
  pathname (proxy_request this method params)
  = "/actors/" +:+ actorName this +:+ "/" +:+ actorId this +:+ "/rpc".
Proof.
  intros Hname Hid. unfold proxy_request. cbn [pathname].
  apply urlPathname_plain.
  change (all_chars is_path_char
            ("ctors/" +:+ actorName this +:+ "/" +:+ actorId this +:+ "/rpc") = true).
  rewrite !all_chars_append. unfold url_safe in *. rewrite Hname, Hid. reflexivity.
Qed.

Lemma proxy_request_is_rpc this method params :
  url_safe (actorName this) = true ->
  url_safe (actorId this) = true ->
  is_rpc (proxy_request this method params) = true.
Proof.
  intros Hname Hid. unfold is_rpc. rewrite (proxy_pathname _ _ _ Hname Hid).
  unfold proxy_request. cbn [http_method].
  rewrite andb_true_r.
  assert (forall a b c d r : string,
             a +:+ b +:+ c +:+ d +:+ r = (a +:+ b +:+ c +:+ d) +:+ r) as ->.
  { intros. rewrite !append_assoc. reflexivity. }
  apply endsWith_append.
Qed.

(** C6: for a proxy whose two names the URL parser leaves as they are,
    when the dispatch of a call made through the proxy succeeds with a
    JSON-representable value, the success envelope built by [fetch] and
    read back by [callMethod] yields exactly that value. *)
Theorem callMethod_round_trip {W : Type} (st : MetaStore) (this : Instance W)
    (proxy : ActorProxy) (method : string) (params : option (list JsValue))
    (w w' : W) (v : JsValue) :
  url_safe (actorName proxy) = true ->
  url_safe (actorId proxy) = true ->
  rpc_call st this (proxy_request proxy method params) w = (inr v, w') ->
  json_representable v = true ->
  callMethod (routed st this) proxy method params w = (inr v, w').
Proof.
  intros Hname Hid Hcall Hrep.
  unfold callMethod, bind. fold (proxy_request proxy method params).
  unfold routed.
  rewrite (fetch_rpc _ _ _ _ (proxy_request_is_rpc _ _ _ Hname Hid)), Hcall.
  unfold JSON_stringify. cbn [jsonify]. rewrite (jsonify_representable _ Hrep).
  reflexivity.
Qed.
End ClientProperties.

Lemma callMethod_round_trip_witness :
  callMethod (platform := test_platform) (routed (platform := test_platform) AgentObject.registry test_instance)
    (createActor "agent-object" "session-12345") "addMessage" (Some [JStr "hello"])
    (AgentObject.fresh (Some ∅))
  = (inr (JStr ("Message " +:+ dquote +:+ "hello" +:+ dquote +:+ " added successfully")),
     snd (test_fetch
            (rpc_request (JsonText (JObj [("method", JStr "addMessage");
                                          ("params", JArr [JStr "hello"])])))
            (AgentObject.fresh (Some ∅)))).
Proof.
  apply (callMethod_round_trip (platform := test_platform)); reflexivity.
Defined.

(** The state [getState] returns holds a [Date] once [ping] has run, and
    a [Date] comes back from the wire as a string. *)
Remark getState_date_not_preserved :
  let w := snd (AgentObject.ping (platform := test_platform) [] (AgentObject.fresh (Some ∅))) in
  let v := state_value (state w) in
  json_representable v = false /\
  fst (AgentObject.getState [] w) = inr v /\
  fst (callMethod (platform := test_platform) (routed (platform := test_platform) AgentObject.registry test_instance)
         (createActor "agent-object" "session-12345") "getState" (Some []) w) <> inr v.
Proof. vm_compute. repeat split. discriminate. Qed.

Section CallOutcome.
Context {platform : Platform} {CW : Type}.
Variable transport : Request -> M CW Response.

(** C7 (as amended): when the transport's response is outside the success
    range the call fails with the transport error carrying the status;
    otherwise, for a body that is a JSON object, the call fails with the
    remote error carrying the [error] field when that field is a non-empty
    string, and returns the [result] field when the [error] field is
    absent or falsy.  An [error] field that is truthy and not a string is
    converted to one first, and the call fails with what the conversion
    throws if it throws. *)
Theorem callMethod_outcome (this : ActorProxy) (method : string)
    (params : option (list JsValue)) (cw cw' : CW) (response : Response) :
  transport (proxy_request this method params) cw = (inr response, cw') ->
  (ok response = false ->
     callMethod transport this method params cw
     = (inl (TransportError (status response) (statusText response)), cw')) /\
  (forall fields,
     ok response = true ->
     resp_body response = JsonText (JObj fields) ->
     (forall s, lookup_field "error" fields = JStr s -> s <> "" ->
        callMethod transport this method params cw = (inl (RemoteError s), cw')) /\
     (truthy (lookup_field "error" fields) = false ->
        callMethod transport this method params cw
        = (inr (lookup_field "result" fields), cw')) /\
     (truthy (lookup_field "error" fields) = true ->
        callMethod transport this method params cw
        = (match ToString (lookup_field "error" fields) with
           | inr shown => inl (RemoteError shown)
           | inl thrown => inl thrown
           end, cw'))).
Proof.
  intros Hsend. unfold callMethod, bind. fold (proxy_request this method params).
  rewrite Hsend. split.
  - intros ->. reflexivity.
  - intros fields -> ->. cbn [negb body_json ret lift get_prop read_field].
    repeat split.
    + intros s -> Hs. cbn [truthy].
      destruct (String.eqb s "") eqn:E; [ | reflexivity ].
      apply String.eqb_eq in E. contradiction.
    + intros ->. reflexivity.
    + intros ->. unfold throw. destruct (ToString _); reflexivity.
Qed.
End CallOutcome.

Lemma callMethod_outcome_witness :
  callMethod (platform := test_platform) (fun _ => ret (error_response (NotCallableError "x")))
    (createActor "agent-object" "session-12345") "x" None tt
  = (inl (TransportError 500 ""), tt) /\
  callMethod (platform := test_platform)
    (fun _ => ret {| status := 200; statusText := "OK";
                     resp_body := JsonText (JObj [("error", JStr "boom")]) |})
    (createActor "agent-object" "session-12345") "x" None tt
  = (inl (RemoteError "boom"), tt).
Proof.
  split.
  - refine (proj1 (callMethod_outcome (platform := test_platform)
                     (fun _ => ret (error_response (NotCallableError "x")))
                     (createActor "agent-object" "session-12345") "x" None tt tt
                     (error_response (NotCallableError "x")) eq_refl) eq_refl).
  - refine (proj1 (proj2 (callMethod_outcome (platform := test_platform)
                     (fun _ => ret {| status := 200; statusText := "OK";
                                      resp_body := JsonText (JObj [("error", JStr "boom")]) |})
                     (createActor "agent-object" "session-12345") "x" None tt tt
                     _ eq_refl) [("error", JStr "boom")] eq_refl eq_refl) "boom" eq_refl _).
    discriminate.
Defined.

(** C7 (as stated) fails: the body carries an [error] field, the status is
    in the success range, and the call returns ([undefined], the missing
    [result] field) instead of failing. *)
Lemma callMethod_empty_error_counterexample :
  ok empty_error_response = true /\
  has_field "error" (resp_body empty_error_response) = true /\
  callMethod (platform := test_platform) (fun _ => ret empty_error_response)
    (createActor "agent-object" "session-12345") "ping" None tt
  = (inr JUndefined, tt).
Proof. repeat split. Qed.

(** ** State and persistence of [AgentObject] *)

Section Persistence.
Context {platform : Platform}.

Lemma to_string_throws_truthy v : to_string_throws v = true -> truthy v = true.
Proof. destruct v; try discriminate; reflexivity. Qed.

(** A time zone that cannot be converted stops [ping] at its first
    statement. *)
Lemma ping_throws args w :
  to_string_throws (nth 0 args JUndefined) = true ->
  AgentObject.ping args w = (inl cannot_convert, w).
Proof.
  intros H. unfold AgentObject.ping, bind, lift, ToString.
  rewrite (to_string_throws_truthy _ H), H. reflexivity.
Qed.

Lemma ping_effect args w :
  to_string_throws (nth 0 args JUndefined) = false ->
  let w1 := snd (AgentObject.ping args w) in
  state w1 = ping_state args w /\
  raw w1 = match raw w with
           | Some store => Some (<["state" := ping_state args w]> store)
           | None => None
           end.
Proof.
  intros H.
  unfold AgentObject.ping, bind, ret, throw, lift, ToString, js_or, ping_state, ping_entry,
    js_or, AgentObject.console_log,
    AgentObject.this_state, AgentObject.new_Date, AgentObject.assign_state,
    AgentObject.storage_put.
  destruct w as [s [store | ] c t]; destruct (truthy (nth 0 args JUndefined));
    rewrite ?H;
    cbn [snd fst state raw console ticks set_state set_raw set_console set_ticks
         to_string_throws];
    try destruct (toLocaleString _ _); split; reflexivity.
Qed.

(** A message that cannot be converted stops [addMessage] once it has
    printed it. *)
Lemma addMessage_throws args w :
  to_string_throws (nth 0 args JUndefined) = true ->
  AgentObject.addMessage args w
  = (inl cannot_convert,
     set_console (console w ++ [[JStr "Adding message:"; nth 0 args JUndefined]]) w).
Proof.
  intros H. unfold AgentObject.addMessage, bind, lift, ToString,
    AgentObject.console_log, AgentObject.this_state.
  rewrite H. reflexivity.
Qed.

Lemma addMessage_effect args w :
  to_string_throws (nth 0 args JUndefined) = false ->
  let w1 := snd (AgentObject.addMessage args w) in
  state w1 = addMessage_state args w /\
  raw w1 = match raw w with
           | Some store => Some (<["state" := addMessage_state args w]> store)
           | None => None
           end /\
  ticks w1 = S (ticks w).
Proof.
  intros H.
  unfold AgentObject.addMessage, bind, ret, lift, ToString, AgentObject.console_log,
    AgentObject.this_state, AgentObject.new_Date, AgentObject.assign_state,
    AgentObject.storage_put.
  rewrite H.
  destruct w as [s [store | ] c t]; repeat split; reflexivity.
Qed.

(** A method that returns has converted its argument. *)
Lemma ping_returned args w v w1 :
  AgentObject.ping args w = (inr v, w1) -> to_string_throws (nth 0 args JUndefined) = false.
Proof.
  destruct (to_string_throws _) eqn:E; [ | reflexivity ].
  rewrite (ping_throws _ _ E). discriminate.
Qed.

Lemma addMessage_returned args w v w1 :
  AgentObject.addMessage args w = (inr v, w1) ->
  to_string_throws (nth 0 args JUndefined) = false.
Proof.
  destruct (to_string_throws _) eqn:E; [ | reflexivity ].
  rewrite (addMessage_throws _ _ E). discriminate.
Qed.

(** C9: on an instance whose storage is attached, when [ping] or
    [addMessage] returns, the in-memory state has been replaced by a newly
    built value and that same value has been put under the key ["state"],
    other keys untouched, so that the persisted state is the in-memory
    state.  The same holds, whether the method returns or throws, for
    every argument that converts to a string, as every string does; for
    an argument that does not, the method throws before it replaces or
    persists anything. *)
Theorem mutators_persist (args : list JsValue) (w : World)
    (store : gmap string AgentState) :
  raw w = Some store ->
  (forall v w1, AgentObject.ping args w = (inr v, w1) ->
     state w1 = ping_state args w /\
     raw w1 = Some (<["state" := state w1]> store) /\
     persisted w1 = Some (state w1)) /\
  (forall v w1, AgentObject.addMessage args w = (inr v, w1) ->
     state w1 = addMessage_state args w /\
     raw w1 = Some (<["state" := state w1]> store) /\
     persisted w1 = Some (state w1)) /\
  (to_string_throws (nth 0 args JUndefined) = false ->
     (let w1 := snd (AgentObject.ping args w) in
      state w1 = ping_state args w /\
      raw w1 = Some (<["state" := state w1]> store) /\
      persisted w1 = Some (state w1)) /\
     (let w1 := snd (AgentObject.addMessage args w) in
      state w1 = addMessage_state args w /\
      raw w1 = Some (<["state" := state w1]> store) /\
      persisted w1 = Some (state w1))) /\
  (to_string_throws (nth 0 args JUndefined) = true ->
     (let (r, w1) := AgentObject.ping args w in
      r = inl cannot_convert /\ state w1 = state w /\ raw w1 = raw w) /\
     (let (r, w1) := AgentObject.addMessage args w in
      r = inl cannot_convert /\ state w1 = state w /\ raw w1 = raw w)).
Proof.
  intros Hraw.
  assert (to_string_throws (nth 0 args JUndefined) = false ->
     (let w1 := snd (AgentObject.ping args w) in
      state w1 = ping_state args w /\
      raw w1 = Some (<["state" := state w1]> store) /\
      persisted w1 = Some (state w1)) /\
     (let w1 := snd (AgentObject.addMessage args w) in
      state w1 = addMessage_state args w /\
      raw w1 = Some (<["state" := state w1]> store) /\
      persisted w1 = Some (state w1))) as Hdone.
  { intros Hconv. split.
    - destruct (ping_effect args w Hconv) as [Hs Hr]. rewrite Hraw in Hr.
      cbn zeta. unfold persisted. rewrite Hr, Hs.
      repeat split. apply lookup_insert_eq.
    - destruct (addMessage_effect args w Hconv) as (Hs & Hr & _). rewrite Hraw in Hr.
      cbn zeta. unfold persisted. rewrite Hr, Hs.
      repeat split. apply lookup_insert_eq. }
  split; [ | split; [ | split ] ].
  - intros v w1 Hrun. destruct (Hdone (ping_returned _ _ _ _ Hrun)) as [H _].
    rewrite Hrun in H. exact H.
  - intros v w1 Hrun. destruct (Hdone (addMessage_returned _ _ _ _ Hrun)) as [_ H].
    rewrite Hrun in H. exact H.
  - exact Hdone.
  - intros Hthrows. rewrite (ping_throws _ _ Hthrows), (addMessage_throws _ _ Hthrows).
    repeat split.
Qed.

(** [getState] reads and changes nothing. *)
Lemma getState_effect args w :
  AgentObject.getState args w
  = (inr (state_value (match persisted w with Some v => v | None => state w end)), w).
Proof. reflexivity. Qed.
End Persistence.

Lemma mutators_persist_witness :
  persisted (snd (AgentObject.addMessage (platform := test_platform) [JStr "hello"]
                    (AgentObject.fresh (Some ∅))))
  = Some {| counter := 0; messages := ["hello at 0"]; lastUpdated := None |}.
Proof.
  destruct (AgentObject.addMessage (platform := test_platform) [JStr "hello"]
              (AgentObject.fresh (Some ∅))) as [[e | v] w1] eqn:Hrun;
    [ vm_compute in Hrun; discriminate Hrun | ].
  destruct (mutators_persist (platform := test_platform) [JStr "hello"]
              (AgentObject.fresh (Some ∅)) ∅ eq_refl) as (_ & H & _).
  destruct (H v w1 Hrun) as (Hs & _ & Hp).
  cbn [snd]. rewrite Hp, Hs. reflexivity.
Defined.

(** An instance built without storage changes its in-memory state and
    persists nothing. *)
Remark addMessage_without_storage :
  let w1 := snd (AgentObject.addMessage (platform := test_platform) [JStr "hello"]
                   (AgentObject.fresh None)) in
  messages (state w1) = ["hello at 0"] /\
  persisted w1 = None.
Proof. vm_compute. repeat split. Qed.

(** ** Re-instantiation *)

Section CrashResume.
Context {platform : Platform}.

Lemma run_call_attached w c : is_Some (raw w) -> is_Some (raw (run_call w c)).
Proof.
  intros [store Hraw]. destruct c as [args | args | args]; cbn [run_call].
  - destruct (to_string_throws (nth 0 args JUndefined)) eqn:E.
    + rewrite (ping_throws _ _ E). cbn [snd]. eauto.
    + destruct (ping_effect args w E) as [_ Hr]. rewrite Hraw in Hr. rewrite Hr. eauto.
  - rewrite getState_effect. cbn [snd]. eauto.
  - destruct (to_string_throws (nth 0 args JUndefined)) eqn:E.
    + rewrite (addMessage_throws _ _ E). cbn [snd set_console raw]. eauto.
    + destruct (addMessage_effect args w E) as (_ & Hr & _).
      rewrite Hraw in Hr. rewrite Hr. eauto.
Qed.

Lemma run_calls_attached cs w : is_Some (raw w) -> is_Some (raw (run_calls cs w)).
Proof.
  revert w. induction cs as [ | c cs IH ]; intros w H; [ exact H | ].
  apply IH. apply run_call_attached. exact H.
Qed.

(** A call that does not take effect leaves the state and the storage as
    they are. *)
Lemma run_call_idle w c :
  takes_effect c = false ->
  state (run_call w c) = state w /\ raw (run_call w c) = raw w.
Proof.
  destruct c as [args | args | args]; cbn [run_call takes_effect].
  - intros E. apply negb_false_iff in E. rewrite (ping_throws _ _ E). auto.
  - intros _. rewrite getState_effect. auto.
  - intros E. apply negb_false_iff in E. rewrite (addMessage_throws _ _ E). auto.
Qed.

(** Once a call has taken effect on an instance with storage, what is
    persisted is the in-memory state. *)
Lemma run_calls_synced cs w :
  is_Some (raw w) ->
  existsb takes_effect cs = true ->
  persisted (run_calls cs w) = Some (state (run_calls cs w)).
Proof.
  intros Hraw. induction cs as [ | c cs IH ] using rev_ind; [ discriminate | ].
  unfold run_calls. rewrite fold_left_app. fold (run_calls cs w). cbn [fold_left].
  rewrite existsb_app. cbn [existsb]. rewrite orb_false_r.
  destruct (run_calls_attached cs w Hraw) as [store Hstore].
  destruct (takes_effect c) eqn:Hc.
  - intros _. destruct c as [args | args | args]; cbn [run_call takes_effect] in *;
      try discriminate Hc; apply negb_true_iff in Hc.
    + destruct (ping_effect args (run_calls cs w) Hc) as [Hs Hr].
      rewrite Hstore in Hr. unfold persisted. rewrite Hr, Hs. apply lookup_insert_eq.
    + destruct (addMessage_effect args (run_calls cs w) Hc) as (Hs & Hr & _).
      rewrite Hstore in Hr. unfold persisted. rewrite Hr, Hs. apply lookup_insert_eq.
  - rewrite orb_false_r. intros Hcs.
    destruct (run_call_idle (run_calls cs w) c Hc) as [Hs Hr].
    unfold persisted. rewrite Hr, Hs. exact (IH Hcs).
Qed.

(** C4: on a re-instantiated object, whose in-memory state is the default
    again, [getState] returns the persisted state when there is one and the
    default when there is none; after calls of which one at least took
    effect (as a [ping] or an [addMessage] does whenever its argument
    converts to a string, and every string does), what it returns is the
    state those calls left in memory before the restart. *)
Theorem getState_after_restart (args : list JsValue) (w : World) :
  let w' := AgentObject.restart w in
  (forall v, persisted w = Some v ->
     AgentObject.getState args w' = (inr (state_value v), w')) /\
  (persisted w = None ->
     AgentObject.getState args w' = (inr (state_value initialState), w')) /\
  (forall cs, is_Some (raw w) -> existsb takes_effect cs = true ->
     let w1 := run_calls cs w in
     AgentObject.getState args (AgentObject.restart w1)
     = (inr (state_value (state w1)), AgentObject.restart w1)).
Proof.
  assert (forall x, persisted (AgentObject.restart x) = persisted x) as Hkeep
    by reflexivity.
  cbn zeta. repeat split.
  - intros v Hv. rewrite getState_effect, Hkeep, Hv. reflexivity.
  - intros Hnone. rewrite getState_effect, Hkeep, Hnone. reflexivity.
  - intros cs Hraw Hmut.
    rewrite getState_effect, Hkeep, (run_calls_synced cs w Hraw Hmut). reflexivity.
Qed.
End CrashResume.

Lemma getState_after_restart_witness :
  let w1 := run_calls (platform := test_platform)
              [CallAddMessage [JStr "a"]; CallPing []; CallGetState []]
              (AgentObject.fresh (Some ∅)) in
  state (AgentObject.restart w1) = initialState /\
  fst (AgentObject.getState [] (AgentObject.restart w1))
  = inr (state_value {| counter := 1;
                        messages := ["a at 0"; "ping default at 2"];
                        lastUpdated := Some 1%Z |}).
Proof.
  split; [ reflexivity | ].
  destruct (getState_after_restart (platform := test_platform) []
              (AgentObject.fresh (Some ∅))) as (_ & _ & H).
  cbn zeta in H.
  rewrite (H [CallAddMessage [JStr "a"]; CallPing []; CallGetState []]
             (ex_intro _ ∅ eq_refl) eq_refl).
  vm_compute. reflexivity.
Defined.

(** Only [getState] prefers what is persisted: after a restart
    [addMessage] starts again from the default state and overwrites the
    persisted log with a log of one entry. *)
Remark addMessage_after_restart_overwrites :
  let w1 := run_calls (platform := test_platform)
              [CallAddMessage [JStr "a"]; CallAddMessage [JStr "b"]]
              (AgentObject.fresh (Some ∅)) in
  let w2 := run_call (platform := test_platform) (AgentObject.restart w1)
              (CallAddMessage [JStr "c"]) in
  option_map messages (persisted w1) = Some ["a at 0"; "b at 1"] /\
  option_map messages (persisted w2) = Some ["c at 2"].
Proof. vm_compute. split; reflexivity. Qed.

(** ** The bounded message log *)

Lemma length_slice_last {A} (k : nat) (l : list A) : length (slice_last k l) <= k.
Proof. unfold slice_last. rewrite length_drop. lia. Qed.

(** Truncating before appending more does not change what the last [k]
    elements are. *)
Lemma slice_last_app {A} (k : nat) (l l' : list A) :
  slice_last k (slice_last k l ++ l') = slice_last k (l ++ l').
Proof.
  unfold slice_last. rewrite !drop_app, drop_drop, !length_app, !length_drop.
  destruct (decide (length l <= k)) as [Hle | Hgt].
  - replace (length l - k) with 0 by lia. cbn [drop plus].
    rewrite !Nat.sub_0_r. reflexivity.
  - f_equal; f_equal; lia.
Qed.

Section MessageLog.
Context {platform : Platform}.

Lemma length_entries ms tick : length (entries ms tick) = length ms.
Proof. revert tick. induction ms as [ | m ms IH ]; intros tick; simpl; auto. Qed.

Lemma add_all_messages (ms : list string) w :
  length (messages (state w)) <= 10 ->
  messages (state (add_all (map JStr ms) w))
  = slice_last 10 (messages (state w) ++ entries (map JStr ms) (ticks w)).
Proof.
  revert w. induction ms as [ | m ms IH ]; intros w Hlen.
  - cbn [map add_all fold_left entries]. rewrite app_nil_r. unfold slice_last.
    replace (length (messages (state w)) - 10) with 0 by lia. reflexivity.
  - cbn [map add_all fold_left entries].
    fold (add_all (map JStr ms) (snd (AgentObject.addMessage [JStr m] w))).
    destruct (addMessage_effect [JStr m] w eq_refl) as (Hs & _ & Ht).
    rewrite IH; rewrite Hs, ?Ht; cbn [messages addMessage_state nth].
    + rewrite slice_last_app, <- app_assoc. reflexivity.
    + apply length_slice_last.
Qed.

(** C5: fifteen messages, strings as the signature of [addMessage] has
    them, added one after the other to an empty log leave the ten entries
    of the last ten messages, in the order they were added. *)
Theorem addMessage_keeps_last_ten (ms : list string) (w : World) :
  messages (state w) = [] ->
  length ms = 15 ->
  messages (state (add_all (map JStr ms) w))
  = drop 5 (entries (map JStr ms) (ticks w)) /\
  length (messages (state (add_all (map JStr ms) w))) = 10.
Proof.
  intros Hempty Hlen.
  rewrite add_all_messages by (rewrite Hempty; simpl; lia).
  rewrite Hempty. cbn [app]. unfold slice_last.
  rewrite length_entries, length_map, Hlen. cbn [Nat.sub].
  split; [ reflexivity | ].
  rewrite length_drop, length_entries, length_map, Hlen. reflexivity.
Qed.
End MessageLog.

Lemma addMessage_keeps_last_ten_witness :
  messages (state (add_all (platform := test_platform)
                     (map JStr ["m1"; "m2"; "m3"; "m4"; "m5"; "m6"; "m7"; "m8"; "m9";
                                "m10"; "m11"; "m12"; "m13"; "m14"; "m15"])
                     (AgentObject.fresh (Some ∅))))
  = ["m6 at 5"; "m7 at 6"; "m8 at 7"; "m9 at 8"; "m10 at 9";
     "m11 at 10"; "m12 at 11"; "m13 at 12"; "m14 at 13"; "m15 at 14"].
Proof.
  destruct (addMessage_keeps_last_ten (platform := test_platform)
              ["m1"; "m2"; "m3"; "m4"; "m5"; "m6"; "m7"; "m8"; "m9";
               "m10"; "m11"; "m12"; "m13"; "m14"; "m15"]
              (AgentObject.fresh (Some ∅)) eq_refl eq_refl)
    as [H _].
  rewrite H. vm_compute. reflexivity.
Defined.

(** ** The scenarios of the specification, run on the stand-in platform *)

(** Scenario 1: [ping] is registered and a dispatch of it answers "pong". *)
Example scenario_ping :
  fst (dispatchRpcCall (platform := test_platform) AgentObject.registry test_instance
         (JStr "ping") (JArr []) (AgentObject.fresh (Some ∅)))
  = inr (JStr "pong").
Proof. vm_compute. reflexivity. Qed.

(** Scenario 3: after [addMessage("hello")], the last entry of the log
    [getState] returns is the entry of that message. *)
Example scenario_addMessage_getState :
  let w1 := snd (AgentObject.addMessage (platform := test_platform) [JStr "hello"]
                   (AgentObject.fresh (Some ∅))) in
  fst (AgentObject.getState [] w1)
  = inr (JObj [("counter", JNum 0);
               ("messages", JArr [JStr "hello at 0"]);
               ("lastUpdated", JNull)]).
Proof. vm_compute. reflexivity. Qed.

(** * Further properties *)

(** ** The registry: what the decorator keeps *)

(** The array an object resolves to stays the same array under every
    later application of the decorator. *)
Lemma getMetadata_stable target key d st t a :
  store_wf st ->
  getMetadata st t = Some a ->
  getMetadata (callable target key d st) t = Some a.
Proof.
  intros Hwf.
  destruct (callable_spec target key d st Hwf) as (ref & Hown & _ & Hget & _).
  induction t as [ | tag proto IH ]; cbn [getMetadata]; rewrite Hown, lookup_insert.
  - case_decide as Heq.
    + subst target. cbn [getMetadata] in Hget.
      intros H. destruct Hget as [Hg | [Hg _]]; congruence.
    + destruct (own st !! _); [ auto | discriminate ].
  - case_decide as Heq.
    + subst target. cbn [getMetadata] in Hget.
      intros H. destruct Hget as [Hg | [Hg _]]; congruence.
    + destruct (own st !! _); [ auto | exact IH ].
Qed.

(** Applying the decorator to an object off the prototype chain of [t]
    does not change which array [t] resolves to. *)
Lemma getMetadata_off_chain target key d st t :
  store_wf st ->
  ~ on_chain_of target t ->
  getMetadata (callable target key d st) t = getMetadata st t.
Proof.
  intros Hwf.
  destruct (callable_spec target key d st Hwf) as (ref & Hown & _ & _ & _).
  induction t as [ | tag proto IH ]; intros Hoff; cbn [getMetadata];
    rewrite Hown, lookup_insert.
  - case_decide as Heq; [ | reflexivity ].
    destruct Hoff. exists []. rewrite Heq. reflexivity.
  - case_decide as Heq.
    + destruct Hoff. exists []. rewrite Heq. reflexivity.
    + destruct (own st !! _); [ reflexivity | ].
      apply IH. intros [up ->]. apply Hoff. exists (tag :: up). reflexivity.
Qed.

Lemma deref_grows target key d st r :
  store_wf st ->
  deref st r `prefix_of` deref (callable target key d st) r.
Proof.
  intros Hwf.
  destruct (callable_spec target key d st Hwf) as (ref & _ & Hderef & _ & _).
  rewrite Hderef. case_decide as Heq.
  - subst r. apply prefix_app_r. reflexivity.
  - reflexivity.
Qed.

Lemma getCallableMethods_grows target key d st t :
  store_wf st ->
  getCallableMethods st t `prefix_of` getCallableMethods (callable target key d st) t.
Proof.
  intros Hwf. unfold getCallableMethods.
  destruct (getMetadata st t) as [a | ] eqn:Hg.
  - rewrite (getMetadata_stable _ _ _ _ _ _ Hwf Hg). apply deref_grows. exact Hwf.
  - apply prefix_nil.
Qed.

Lemma decorate_all_app rs rs' st :
  decorate_all (rs ++ rs') st = decorate_all rs' (decorate_all rs st).
Proof. unfold decorate_all. apply fold_left_app. Qed.

(** X1: the list of callable methods of an object only ever grows at its
    end: whatever further classes are decorated, the entries it had are
    still there, in the same order, so a callable name stays callable
    (there is no way to unregister). *)
Theorem registry_only_grows (rs rs' : list Registration) (t : Obj) (v : JsValue) :
  getCallableMethods (decorate_all rs empty_store) t
    `prefix_of` getCallableMethods (decorate_all (rs ++ rs') empty_store) t /\
  (isCallableMethod (decorate_all rs empty_store) t v = true ->
   isCallableMethod (decorate_all (rs ++ rs') empty_store) t v = true).
Proof.
  assert (getCallableMethods (decorate_all rs empty_store) t
            `prefix_of` getCallableMethods (decorate_all (rs ++ rs') empty_store) t)
    as Hprefix.
  { induction rs' as [ | r rs' IH ] using rev_ind.
    - rewrite app_nil_r. reflexivity.
    - rewrite app_assoc, decorate_all_snoc. etransitivity; [ exact IH | ].
      apply getCallableMethods_grows. apply decorate_all_wf. }
  split; [ exact Hprefix | ].
  unfold isCallableMethod. destruct Hprefix as [more ->].
  rewrite existsb_app. intros ->. reflexivity.
Qed.

(** X2: for a class with no decorated ancestor or descendant, the list of
    callable methods is exactly the entries of the decorator applications
    on that class, in program order; a name decorated twice is listed
    twice. *)
Theorem getCallableMethods_in_order (rs : list Registration) (target : Obj) :
  registrations_apart rs target ->
  getCallableMethods (decorate_all rs empty_store) target
  = map entry_of (filter (fun r => reg_target r = target) rs).
Proof.
  induction rs as [ | r rs IH ] using rev_ind; intros Hapart.
  { unfold getCallableMethods.
    destruct (getMetadata _ target) as [a | ] eqn:Hg; [ | reflexivity ].
    apply getMetadata_holder in Hg as (o & _ & Ho).
    cbn in Ho. rewrite lookup_empty in Ho. discriminate Ho. }
  apply registrations_apart_snoc in Hapart as [Hrs Hr].
  specialize (IH Hrs).
  destruct (apart_private_array rs target Hrs) as [Hpriv _].
  rewrite decorate_all_snoc, filter_app, map_app. unfold decorate.
  pose proof (decorate_all_wf rs) as Hwf.
  set (st := decorate_all rs empty_store) in *.
  destruct (callable_spec (reg_target r) (reg_key r) (reg_descriptor r) _ Hwf)
    as (ref & Hown & Hderef & Hget & _).
  destruct (decide (reg_target r = target)) as [Heq | Hne].
  - rewrite filter_cons_True, filter_nil by exact Heq. cbn [map]. rewrite <- IH.
    unfold getCallableMethods at 1.
    rewrite (getMetadata_own _ _ ref) by (rewrite Hown, Heq; apply lookup_insert_eq).
    rewrite Hderef, decide_True by reflexivity. f_equal.
    unfold getCallableMethods. rewrite <- Heq.
    destruct Hget as [-> | [-> ->]]; [ reflexivity | ].
    unfold deref. rewrite lookup_ge_None_2 by lia. reflexivity.
  - rewrite filter_cons_False, filter_nil, app_nil_r by exact Hne. rewrite <- IH.
    assert (~ on_chain_of (reg_target r) target) as Hoff by (intros H; apply Hne, Hr; auto).
    unfold getCallableMethods.
    rewrite (getMetadata_off_chain _ _ _ _ _ Hwf Hoff).
    destruct (getMetadata st target) as [a | ] eqn:Hg; [ | reflexivity ].
    rewrite Hderef, decide_False; [ reflexivity | ].
    intros ->.
    apply getMetadata_holder in Hg as (o & Hchain & Ho).
    destruct (own_registered _ _ _ Ho) as (r' & Hin & Ht).
    assert (o = target) as -> by (rewrite <- Ht; apply Hrs; [ exact Hin | left; rewrite Ht; exact Hchain ]).
    destruct Hget as [Hg' | [_ ->]].
    + apply getMetadata_holder in Hg' as (o' & Hchain' & Ho').
      apply Hne, Hr. right. rewrite <- (Hpriv _ _ Ho Ho'). exact Hchain'.
    + apply Hwf in Ho. lia.
Qed.

Lemma getCallableMethods_in_order_witness :
  map name (getCallableMethods AgentObject.registry AgentObject.prototype)
  = ["ping"; "getState"; "addMessage"].
Proof.
  unfold AgentObject.registry.
  rewrite (getCallableMethods_in_order AgentObject.decorations AgentObject.prototype).
  - reflexivity.
  - intros r [<- | [<- | [<- | []]]] _; reflexivity.
Defined.

(** X3: the decorator pushes onto the array its target resolves to, so the
    name it registers becomes callable on every object that resolves to
    that same array: on the parent class too, when the target is a subclass
    that had no array of its own. *)
Theorem callable_reaches_array_sharers (rs : list Registration)
    (target t : Obj) (key : string) (d : PropertyDescriptor) (a : nat) :
  let st := decorate_all rs empty_store in
  getMetadata st target = Some a ->
  getMetadata st t = Some a ->
  isCallableMethod (callable target key d st) t (JStr key) = true.
Proof.
  intros st Hx Ht.
  pose proof (decorate_all_wf rs) as Hwf. fold st in Hwf.
  destruct (callable_spec target key d st Hwf) as (ref & _ & Hderef & Hget & _).
  assert (ref = a) as -> by (destruct Hget as [Hg | [Hg _]]; congruence).
  unfold isCallableMethod, getCallableMethods.
  rewrite (getMetadata_stable _ _ _ _ _ _ Hwf Ht), Hderef, decide_True by reflexivity.
  rewrite existsb_app. cbn [existsb name strict_eq_string].
  rewrite String.eqb_refl, orb_true_r. reflexivity.
Qed.

Lemma callable_reaches_array_sharers_witness :
  let rs := [ {| reg_target := [1]; reg_key := "p"; reg_descriptor := 0 |} ] in
  isCallableMethod (callable [2; 1] "q" 1 (decorate_all rs empty_store)) [1] (JStr "q") = true.
Proof.
  apply (callable_reaches_array_sharers
           [ {| reg_target := [1]; reg_key := "p"; reg_descriptor := 0 |} ]
           [2; 1] [1] "q" 1 0); vm_compute; reflexivity.
Defined.

(** X4: an object with no decorated class on its prototype chain has the
    empty list of callable methods, and no value is a callable name for
    it. *)
Theorem getCallableMethods_undecorated (rs : list Registration) (t : Obj) (v : JsValue) :
  (forall r, In r rs -> ~ on_chain_of (reg_target r) t) ->
  getCallableMethods (decorate_all rs empty_store) t = [] /\
  isCallableMethod (decorate_all rs empty_store) t v = false.
Proof.
  intros Hnone.
  assert (getCallableMethods (decorate_all rs empty_store) t = []) as Hempty.
  { unfold getCallableMethods.
    destruct (getMetadata _ t) as [a | ] eqn:Hg; [ | reflexivity ].
    apply getMetadata_holder in Hg as (o & Hchain & Ho).
    destruct (own_registered _ _ _ Ho) as (r & Hin & Ht).
    destruct (Hnone r Hin). rewrite Ht. exact Hchain. }
  split; [ exact Hempty | ].
  unfold isCallableMethod. rewrite Hempty. reflexivity.
Qed.

Lemma getCallableMethods_undecorated_witness :
  getCallableMethods AgentObject.registry AgentObject.Actor_prototype = [].
Proof.
  refine (proj1 (getCallableMethods_undecorated AgentObject.decorations
                   AgentObject.Actor_prototype JNull _)).
  intros r [<- | [<- | [<- | []]]] [up Hup];
    apply (f_equal (@length nat)) in Hup; rewrite length_app in Hup;
    simpl in Hup; lia.
Defined.

(** ** The dispatcher: when a method runs *)

(** X5: the dispatcher changes nothing by itself.  Either it fails with
    one of its own errors (not callable, not found on the instance,
    parameters that cannot be spread) and the world is untouched, or the
    name is a registered string naming a function of the instance and the
    outcome, result and world, is exactly that of the function applied to
    the spread parameters. *)
Theorem dispatchRpcCall_outcomes {platform : Platform} {W : Type}
    (st : MetaStore) (instance : Instance W) (method params : JsValue)
    (w w' : W) (r : JsError + JsValue) :
  dispatchRpcCall st instance method params w = (r, w') ->
  (w' = w /\
   (r = inl (NotCallableError (js_to_string method)) \/
    r = inl (MethodMissingError (js_to_string method)) \/
    exists msg, r = inl (TypeError msg))) \/
  (exists m f args,
     method = JStr m /\
     isCallableMethod st (inst_object instance) (JStr m) = true /\
     member instance m = Some f /\
     spread (match params with JUndefined => JArr [] | _ => params end) = inr args /\
     f args w = (r, w')).
Proof.
  unfold dispatchRpcCall.
  destruct (isCallableMethod st (inst_object instance) method) eqn:Hc; cbn [negb].
  - destruct method as [ | | b | n | m | ms | elems | fields ];
      try (rewrite isCallableMethod_not_string in Hc by discriminate; discriminate Hc).
    cbn [js_to_string].
    destruct (member instance m) as [f | ] eqn:Hf.
    + unfold bind, lift.
      destruct (spread _) as [e | args] eqn:Hs.
      * intros [= <- <-]. left. split; [ reflexivity | ]. right. right.
        destruct params; try destruct elems; cbn in Hs; try discriminate Hs;
          injection Hs as <-; eauto.
      * intros H. right. exists m, f, args. auto.
    + intros [= <- <-]. left. auto.
  - unfold bind, lift, throw, ToString.
    destruct (to_string_throws method); intros [= <- <-]; left;
      (split; [ reflexivity | ]); [ right; right; eexists; reflexivity | auto ].
Qed.

Lemma dispatchRpcCall_outcomes_witness :
  exists msg,
    dispatchRpcCall (platform := test_platform) AgentObject.registry test_instance
      (JStr "ping") (JNum 5) (AgentObject.fresh (Some ∅))
    = (inl (TypeError msg), AgentObject.fresh (Some ∅)).
Proof.
  destruct (dispatchRpcCall (platform := test_platform) AgentObject.registry test_instance
              (JStr "ping") (JNum 5) (AgentObject.fresh (Some ∅))) as [r w'] eqn:E.
  destruct (dispatchRpcCall_outcomes (platform := test_platform) _ _ _ _ _ _ _ E)
    as [[-> [-> | [-> | [msg ->]]]] | (m & f & args & _ & _ & _ & Hs & _)].
  - vm_compute in E. discriminate E.
  - vm_compute in E. discriminate E.
  - exists msg. reflexivity.
  - discriminate Hs.
Defined.

(** X6: a method decorated on a class is invoked, with the parameters
    passed positionally, through every instance of that class that has
    the method; the result and the world are the method's. *)
Theorem registered_method_invoked {platform : Platform} {W : Type}
    (rs : list Registration) (class : Obj) (tag : nat) (instance : Instance W)
    (m : string) (f : list JsValue -> M W JsValue) (args : list JsValue) (w : W) :
  inst_object instance = tag :: class ->
  (forall k, ~ registered_on rs (tag :: class) k) ->
  registered_on rs class m ->
  member instance m = Some f ->
  dispatchRpcCall (decorate_all rs empty_store) instance (JStr m) (JArr args) w
  = f args w.
Proof.
  intros Hobj Hplain Hreg Hf. unfold dispatchRpcCall.
  assert (isCallableMethod (decorate_all rs empty_store) (inst_object instance) (JStr m)
          = true) as ->.
  { rewrite Hobj. apply isCallableMethod_spec.
    destruct (registered_on_held _ _ _ Hreg) as (ref & e & Hown & Hin & He).
    exists e. split; [ | exact He ].
    unfold getCallableMethods. rewrite getMetadata_inherit.
    - rewrite (getMetadata_own _ _ _ Hown). exact Hin.
    - destruct (own _ !! (tag :: class)) as [ref' | ] eqn:E; [ | reflexivity ].
      destruct (own_registered _ _ _ E) as (r & Hr & Ht).
      destruct (Hplain (reg_key r)). exists r. auto. }
  cbn [negb js_to_string]. rewrite Hf. reflexivity.
Qed.

Lemma registered_method_invoked_witness :
  dispatchRpcCall (platform := test_platform) AgentObject.registry test_instance
    (JStr "addMessage") (JArr [JStr "hello"]) (AgentObject.fresh (Some ∅))
  = AgentObject.addMessage (platform := test_platform) [JStr "hello"]
      (AgentObject.fresh (Some ∅)).
Proof.
  apply (registered_method_invoked (platform := test_platform)
           AgentObject.decorations AgentObject.prototype 0).
  - reflexivity.
  - intros k (r & [<- | [<- | [<- | []]]] & Ht & _); discriminate Ht.
  - exists {| reg_target := AgentObject.prototype; reg_key := "addMessage";
              reg_descriptor := 2 |}.
    simpl. auto.
  - reflexivity.
Defined.

(** ** The entry point and the proxy, end to end *)

(** A request that is not a POST, or whose path does not end in [/rpc],
    is answered with the fixed greeting and status 200; nothing is parsed
    or dispatched and the world is unchanged. *)
Lemma fetch_fallback {platform : Platform} {W : Type}
    (st : MetaStore) (this : Instance W) (request : Request) (w : W) :
  http_method request <> "POST" \/ endsWith (pathname request) "/rpc" = false ->
  fetch st this request w = (hello_response, w).
Proof.
  intros H. unfold fetch.
  assert (is_rpc request = false) as ->; [ | reflexivity ].
  unfold is_rpc. destruct H as [H | ->]; [ | reflexivity ].
  apply andb_false_intro2. apply String.eqb_neq. exact H.
Qed.

Lemma fetch_fallback_witness :
  test_fetch {| pathname := "/actors/agent-object/session-12345/rpc";
                http_method := "GET";
                req_body := JsonText (JObj [("method", JStr "ping")]) |}
             (AgentObject.fresh (Some ∅))
  = (hello_response, AgentObject.fresh (Some ∅)).
Proof.
  apply (fetch_fallback (platform := test_platform)). left. discriminate.
Defined.

Section EndToEnd.
Context {platform : Platform}.

(** The request the proxy sends is always well formed for the entry
    point: the call it makes is the dispatch of the very method name, on
    the arguments as [JSON.stringify] renders them ([undefined] turned into
    [null], a [Date] into its ISO string). *)
Lemma proxy_request_dispatched {W : Type} (st : MetaStore) (this : Instance W)
    (proxy : ActorProxy) (method : string) (params : option (list JsValue)) (w : W) :
  rpc_call st this (proxy_request proxy method params) w
  = dispatchRpcCall st this (JStr method) (JArr (wire_args (default [] params))) w.
Proof.
  unfold rpc_call, proxy_request, JSON_stringify. cbn [req_body].
  assert (jsonify (JObj [("method", JStr method); ("params", JArr (default [] params))])
          = Some (JObj [("method", JStr method);
                        ("params", JArr (wire_args (default [] params)))])) as ->.
  { reflexivity. }
  reflexivity.
Qed.

(** X7: what a call through a proxy, whose two names the URL parser
    leaves as they are, gives when the request reaches the entry point of
    the instance: the method named is dispatched on the
    arguments as [JSON.stringify] renders them.  If the dispatch succeeds the caller gets
    the result as [JSON.stringify] renders it ([undefined] when the method
    returned [undefined]); if it fails in any way the caller gets the
    transport error with the status of the error response, 500, never the
    remote error: the message in the error envelope is not read. *)
Theorem callMethod_routed {W : Type} (st : MetaStore) (this : Instance W)
    (proxy : ActorProxy) (method : string) (params : option (list JsValue)) (w : W) :
  url_safe (actorName proxy) = true ->
  url_safe (actorId proxy) = true ->
  callMethod (routed st this) proxy method params w
  = match dispatchRpcCall st this (JStr method)
            (JArr (wire_args (default [] params))) w with
    | (inr v, w') => (inr (wire_result v), w')
    | (inl e, w') =>
        (inl (TransportError (status (error_response e)) (statusText (error_response e))),
         w')
    end.
Proof.
  intros Hname Hid.
  rewrite <- (proxy_request_dispatched st this proxy method params w).
  unfold callMethod, bind. fold (proxy_request proxy method params).
  unfold routed. rewrite (fetch_rpc _ _ _ _ (proxy_request_is_rpc _ _ _ Hname Hid)).
  destruct (rpc_call st this (proxy_request proxy method params) w) as [[e | v] w'].
  - reflexivity.
  - unfold JSON_stringify, wire_result. cbn [jsonify].
    destruct (jsonify v) as [doc | ]; reflexivity.
Qed.

(** X8: through [AgentObject.fetch], a request naming any method other
    than the three decorated ones, [dangerousMethod] included, is answered
    with status 500 and the not-callable message, whatever its parameters,
    and leaves the instance as it was. *)
Theorem fetch_rejects_undecorated (id : nat) (request : Request) (w : World)
    (fields : list (string * JsValue)) (m : string) :
  is_rpc request = true ->
  req_body request = JsonText (JObj fields) ->
  lookup_field "method" fields = JStr m ->
  m <> "ping" -> m <> "getState" -> m <> "addMessage" ->
  fetch AgentObject.registry (AgentObject.instance id) request w
  = (error_response (NotCallableError m), w).
Proof.
  intros Hrpc Hbody Hm H1 H2 H3.
  rewrite (fetch_rpc _ _ _ _ Hrpc). unfold rpc_call. rewrite Hbody.
  unfold body_json, destructure_call, bind, ret. cbn [read_field fst snd].
  rewrite Hm, (AgentObject_rejects_undecorated id m _ w H1 H2 H3). reflexivity.
Qed.
End EndToEnd.

Lemma callMethod_routed_witness :
  callMethod (platform := test_platform)
    (routed (platform := test_platform) AgentObject.registry test_instance)
    (createActor "agent-object" "session-12345") "dangerousMethod" (Some [])
    (AgentObject.fresh (Some ∅))
  = (inl (TransportError 500 ""), AgentObject.fresh (Some ∅)).
Proof.
  rewrite (callMethod_routed (platform := test_platform) AgentObject.registry test_instance
             (createActor "agent-object" "session-12345") "dangerousMethod" (Some [])
             (AgentObject.fresh (Some ∅)) eq_refl eq_refl).
  vm_compute. reflexivity.
Defined.

Lemma fetch_rejects_undecorated_witness :
  test_fetch (rpc_request (JsonText (JObj [("method", JStr "dangerousMethod");
                                           ("params", JArr [])])))
             (AgentObject.fresh (Some ∅))
  = (error_response (NotCallableError "dangerousMethod"), AgentObject.fresh (Some ∅)).
Proof.
  apply (fetch_rejects_undecorated (platform := test_platform) 0 _ _
           [("method", JStr "dangerousMethod"); ("params", JArr [])] "dangerousMethod");
    first [ reflexivity | discriminate ].
Defined.

(** ** [AgentObject]: how calls compose *)

Section CallsCompose.
Context {platform : Platform}.

Lemma ping_ticks args w :
  ticks (snd (AgentObject.ping args w)) = ticks w + call_ticks (CallPing args).
Proof.
  cbn [call_ticks]. destruct (to_string_throws (nth 0 args JUndefined)) eqn:H.
  { rewrite (ping_throws _ _ H). cbn [snd]. lia. }
  unfold AgentObject.ping, bind, ret, throw, lift, ToString, js_or,
    AgentObject.console_log,
    AgentObject.this_state, AgentObject.new_Date, AgentObject.assign_state,
    AgentObject.storage_put.
  destruct w as [s [store | ] c t]; destruct (truthy (nth 0 args JUndefined));
    rewrite ?H;
    cbn [snd fst state raw console ticks set_state set_raw set_console set_ticks
         to_string_throws];
    try destruct (toLocaleString _ _);
    cbn [snd fst state raw console ticks set_state set_raw set_console set_ticks]; lia.
Qed.

Lemma run_calls_cons c cs w : run_calls (c :: cs) w = run_calls cs (run_call w c).
Proof. reflexivity. Qed.

(** What one call does to the counter, the log and the clock. *)
Lemma run_call_effect c w :
  let w1 := run_call w c in
  counter (state w1)
  = (counter (state w) + (if is_ping c && takes_effect c then 1 else 0))%Z /\
  messages (state w1)
  = (if takes_effect c
     then slice_last 10 (messages (state w) ++ call_entry c (ticks w))
     else messages (state w)) /\
  ticks w1 = ticks w + call_ticks c.
Proof.
  destruct c as [args | args | args];
    unfold call_entry; cbn [run_call is_ping takes_effect call_ticks andb].
  - destruct (to_string_throws (nth 0 args JUndefined)) eqn:H; cbn [negb].
    + rewrite (ping_throws _ _ H). cbn [snd]. repeat split; lia.
    + destruct (ping_effect args w H) as [Hs _]. rewrite Hs.
      pose proof (ping_ticks args w) as Ht. cbn [call_ticks] in Ht. rewrite H in Ht.
      rewrite Ht. cbn [counter messages ping_state]. auto.
  - rewrite getState_effect. cbn [snd]. repeat split; lia.
  - destruct (to_string_throws (nth 0 args JUndefined)) eqn:H; cbn [negb].
    + rewrite (addMessage_throws _ _ H). cbn [snd set_console state ticks].
      repeat split; lia.
    + destruct (addMessage_effect args w H) as (Hs & _ & Ht). rewrite Hs, Ht.
      cbn [counter messages addMessage_state]. repeat split; lia.
Qed.

(** X9: whatever calls are made and in whatever order, the counter has
    advanced by the number of [ping] calls that took effect (also those
    that ended in an error for a rejected time zone; not those whose time
    zone could not be converted to a string, which no string is), and the
    clock has been read as often as the calls prescribe. *)
Theorem run_calls_counter (cs : list Call) (w : World) :
  counter (state (run_calls cs w))
  = (counter (state w)
     + Z.of_nat (length (filter (fun c => is_ping c && takes_effect c = true) cs)))%Z /\
  ticks (run_calls cs w) = ticks w + sum_list (map call_ticks cs).
Proof.
  revert w. induction cs as [ | c cs IH ]; intros w.
  - cbn. split; lia.
  - rewrite run_calls_cons. destruct (IH (run_call w c)) as [Hc Ht].
    destruct (run_call_effect c w) as (Hc1 & _ & Ht1).
    rewrite Hc, Ht, Hc1, Ht1. cbn [map sum_list sum_list_with id].
    split; [ | lia ].
    destruct (is_ping c && takes_effect c) eqn:E.
    + rewrite filter_cons_True by exact E. cbn [length]. lia.
    + rewrite filter_cons_False by (rewrite E; discriminate). lia.
Qed.

Lemma call_entries_app cs cs' tick :
  call_entries (cs ++ cs') tick
  = call_entries cs tick ++ call_entries cs' (tick + sum_list (map call_ticks cs)).
Proof.
  revert tick. induction cs as [ | c cs IH ]; intros tick.
  - cbn. rewrite Nat.add_0_r. reflexivity.
  - cbn [app call_entries map sum_list sum_list_with id].
    rewrite IH, <- app_assoc, Nat.add_assoc. reflexivity.
Qed.

(** X10: the message log after any run of calls is the last ten of the
    log before followed by the entries of the [ping] and [addMessage]
    calls that took effect, in call order; in particular it never holds
    more than ten entries. *)
Theorem run_calls_messages (cs : list Call) (w : World) :
  length (messages (state w)) <= 10 ->
  messages (state (run_calls cs w))
  = slice_last 10 (messages (state w) ++ call_entries cs (ticks w)) /\
  length (messages (state (run_calls cs w))) <= 10.
Proof.
  intros Hlen.
  assert (messages (state (run_calls cs w))
          = slice_last 10 (messages (state w) ++ call_entries cs (ticks w))) as Heq.
  { revert w Hlen. induction cs as [ | c cs IH ]; intros w Hlen.
    - cbn [run_calls fold_left call_entries]. rewrite app_nil_r. unfold slice_last.
      replace (length (messages (state w)) - 10) with 0 by lia. reflexivity.
    - rewrite run_calls_cons.
      destruct (run_call_effect c w) as (_ & Hm & Ht).
      rewrite IH, Hm, Ht.
      + cbn [call_entries]. unfold call_entry at 2.
        destruct (takes_effect c) eqn:E.
        * rewrite slice_last_app, <- app_assoc. unfold call_entry. rewrite E.
          reflexivity.
        * reflexivity.
      + rewrite Hm. destruct (takes_effect c); [ apply length_slice_last | exact Hlen ]. }
  split; [ exact Heq | ]. rewrite Heq. apply length_slice_last.
Qed.
End CallsCompose.

Lemma run_calls_messages_witness :
  messages (state (run_calls (platform := test_platform)
                     [CallPing [JStr "UTC"]; CallGetState []; CallAddMessage [JStr "a"]]
                     (AgentObject.fresh None)))
  = ["ping UTC at 1"; "a at 3"].
Proof.
  destruct (run_calls_messages (platform := test_platform)
              [CallPing [JStr "UTC"]; CallGetState []; CallAddMessage [JStr "a"]]
              (AgentObject.fresh None)) as [H _].
  - cbn. lia.
  - rewrite H. vm_compute. reflexivity.
Defined.

(** A body with a string for [method] is handed to the dispatcher, with
    the [params] it has, the empty array when it has none. *)
Lemma rpc_call_well_formed {platform : Platform} {W : Type}
    (st : MetaStore) (this : Instance W) (request : Request) (w : W)
    (fields : list (string * JsValue)) (m : string) (params : JsValue) :
  req_body request = JsonText (JObj fields) ->
  lookup_field "method" fields = JStr m ->
  lookup_field "params" fields = params ->
  rpc_call st this request w
  = dispatchRpcCall st this (JStr m)
      (match params with JUndefined => JArr [] | _ => params end) w.
Proof.
  intros Hbody Hm Hp. unfold rpc_call. rewrite Hbody.
  unfold body_json, destructure_call, bind, ret. cbn [read_field fst snd].
  rewrite Hm, Hp. destruct params; reflexivity.
Qed.

Section AgentObjectCalls.
Context {platform : Platform}.

(** Through any instance, the three decorated names reach the methods of
    the class. *)
Lemma AgentObject_dispatch (id : nat) (m : string)
    (f : list JsValue -> M World JsValue) (args : list JsValue) (w : World) :
  In m ["ping"; "getState"; "addMessage"] ->
  AgentObject.methods m = Some f ->
  dispatchRpcCall AgentObject.registry (AgentObject.instance id) (JStr m) (JArr args) w
  = f args w.
Proof.
  intros Hin Hf. unfold dispatchRpcCall.
  assert (isCallableMethod AgentObject.registry
            (inst_object (AgentObject.instance id)) (JStr m) = true) as ->.
  { apply isCallableMethod_spec. cbn [inst_object AgentObject.instance].
    rewrite <- (AgentObject_callable_methods id) in Hin.
    apply in_map_iff in Hin as (e & He & Hin). eauto. }
  cbn [negb js_to_string member AgentObject.instance]. rewrite Hf. reflexivity.
Qed.

(** X11: a [ping] whose time zone converts to a string (as every string
    does) that the runtime rejects is answered with status 500 and the
    range error, but only after the state was replaced and persisted: the
    counter has advanced and the log has its entry. *)
Theorem fetch_ping_rejected_time_zone (id : nat) (request : Request) (w : World)
    (tz : JsValue) (more : list JsValue) :
  is_rpc request = true ->
  req_body request
  = JsonText (JObj [("method", JStr "ping"); ("params", JArr (tz :: more))]) ->
  truthy tz = true ->
  to_string_throws tz = false ->
  toLocaleString (clock (S (S (ticks w)))) (js_to_string tz) = None ->
  let outcome := fetch AgentObject.registry (AgentObject.instance id) request w in
  fst outcome
  = error_response (RangeError ("Invalid time zone specified: " +:+ js_to_string tz)) /\
  state (snd outcome) = ping_state (tz :: more) w /\
  (is_Some (raw w) -> persisted (snd outcome) = Some (ping_state (tz :: more) w)).
Proof.
  intros Hrpc Hbody Htz Hconv Hloc outcome. subst outcome.
  rewrite (fetch_rpc _ _ _ _ Hrpc).
  rewrite (rpc_call_well_formed _ _ _ _ _ "ping" (JArr (tz :: more)) Hbody)
    by reflexivity.
  rewrite (AgentObject_dispatch id "ping" AgentObject.ping)
    by (first [ reflexivity | left; reflexivity ]).
  destruct (ping_effect (tz :: more) w Hconv) as [Hs Hr].
  destruct (AgentObject.ping (tz :: more) w) as [r w1] eqn:Hping.
  cbn [snd] in Hs, Hr.
  assert (r = inl (RangeError ("Invalid time zone specified: " +:+ js_to_string tz))) as ->.
  { revert Hping.
    unfold AgentObject.ping, bind, ret, throw, lift, ToString, js_or,
      AgentObject.console_log,
      AgentObject.this_state, AgentObject.new_Date, AgentObject.assign_state,
      AgentObject.storage_put.
    destruct w as [s [store | ] c t];
      cbn [nth snd fst state raw console ticks set_state set_raw set_console set_ticks] in *;
      rewrite Htz, Hconv;
      cbn [nth snd fst state raw console ticks set_state set_raw set_console set_ticks];
      rewrite Hloc; intros [= <- _]; reflexivity. }
  cbn [fst snd]. repeat split; [ exact Hs | ].
  intros [store Hstore]. unfold persisted. rewrite Hr, Hstore.
  apply lookup_insert_eq.
Qed.

(** X12: once a [ping] or an [addMessage] has taken effect (as it does
    whenever its argument converts to a string, and every string does),
    with or without storage, [getState] returns the in-memory state as the
    calls left it, and changes nothing. *)
Theorem getState_after_calls (cs : list Call) (args : list JsValue) (w : World) :
  existsb takes_effect cs = true ->
  AgentObject.getState args (run_calls cs w)
  = (inr (state_value (state (run_calls cs w))), run_calls cs w).
Proof.
  intros Hmut. rewrite getState_effect.
  destruct (raw w) as [store | ] eqn:Hraw.
  - rewrite (run_calls_synced cs w) by (rewrite ?Hraw; eauto). reflexivity.
  - assert (raw (run_calls cs w) = None) as Hnone.
    { clear Hmut. revert w Hraw. induction cs as [ | c cs IH ]; intros w Hraw; [ exact Hraw | ].
      rewrite run_calls_cons. apply IH.
      destruct (takes_effect c) eqn:Hc.
      - destruct c as [a | a | a]; cbn [run_call takes_effect] in *;
          try discriminate Hc; apply negb_true_iff in Hc.
        + destruct (ping_effect a w Hc) as [_ Hr]. rewrite Hr, Hraw. reflexivity.
        + destruct (addMessage_effect a w Hc) as (_ & Hr & _).
          rewrite Hr, Hraw. reflexivity.
      - destruct (run_call_idle w c Hc) as [_ Hr]. rewrite Hr. exact Hraw. }
    unfold persisted. rewrite Hnone. reflexivity.
Qed.
End AgentObjectCalls.

Lemma fetch_ping_rejected_time_zone_witness :
  let outcome :=
    test_fetch (rpc_request (JsonText (JObj [("method", JStr "ping");
                                             ("params", JArr [JStr "Mars/Olympus"])])))
               (AgentObject.fresh (Some ∅)) in
  status (fst outcome) = 500%Z /\
  counter (state (snd outcome)) = 1%Z /\
  option_map counter (persisted (snd outcome)) = Some 1%Z.
Proof.
  destruct (fetch_ping_rejected_time_zone (platform := test_platform) 0
              (rpc_request (JsonText (JObj [("method", JStr "ping");
                                            ("params", JArr [JStr "Mars/Olympus"])])))
              (AgentObject.fresh (Some ∅)) (JStr "Mars/Olympus") []
              eq_refl eq_refl eq_refl eq_refl eq_refl) as (Hr & Hs & Hp).
  unfold test_fetch, test_instance. cbn zeta.
  rewrite Hr, Hs, (Hp (ex_intro _ ∅ eq_refl)). repeat split.
Defined.

Lemma getState_after_calls_witness :
  fst (AgentObject.getState []
         (run_calls (platform := test_platform) [CallAddMessage [JStr "hello"]]
            (AgentObject.fresh None)))
  = inr (JObj [("counter", JNum 0);
               ("messages", JArr [JStr "hello at 0"]);
               ("lastUpdated", JNull)]).
Proof.
  rewrite (getState_after_calls (platform := test_platform)
             [CallAddMessage [JStr "hello"]] [] (AgentObject.fresh None) eq_refl).
  vm_compute. reflexivity.
Defined.

(** ** The worker's actor route *)

Lemma split_head (s : string) : exists rest, split slash s = first_segment s :: rest.
Proof.
  induction s as [ | c s [rest IH] ]; cbn [split first_segment]; [ eauto | ].
  destruct (Ascii.eqb c slash); [ eauto | ]. rewrite IH. eauto.
Qed.

Lemma first_segment_append (s t : string) :
  first_segment (s +:+ String slash t) = first_segment s.
Proof.
  induction s as [ | c s IH ].
  - reflexivity.
  - change (String c s +:+ String slash t) with (String c (s +:+ String slash t)).
    cbn [first_segment]. destruct (Ascii.eqb c slash); [ reflexivity | ].
    rewrite IH. reflexivity.
Qed.

Lemma split_segment (a s : string) :
  first_segment a = a ->
  split slash (a +:+ String slash s) = a :: split slash s.
Proof.
  induction a as [ | c a IH ]; intros Ha.
  - reflexivity.
  - change (String c a +:+ String slash s) with (String c (a +:+ String slash s)).
    cbn [split first_segment] in *.
    destruct (Ascii.eqb c slash); [ discriminate Ha | ].
    injection Ha as Ha. rewrite (IH Ha). reflexivity.
Qed.

Lemma prefix_append (p s : string) : String.prefix p (p +:+ s) = true.
Proof.
  induction p as [ | c p IH ]; [ destruct s; reflexivity | ].
  change (String c p +:+ s) with (String c (p +:+ s)). cbn [String.prefix].
  destruct (Ascii.ascii_dec c c) as [_ | Hne]; [ exact IH | destruct Hne; reflexivity ].
Qed.

(** The parts of the path the proxy addresses, for an actor name without
    [/]. *)
Lemma proxy_path_parts (name id : string) :
  first_segment name = name ->
  exists rest,
    split slash ("/actors/" +:+ name +:+ "/" +:+ id +:+ "/rpc")
    = "" :: "actors" :: name :: first_segment id :: rest.
Proof.
  intros Hname.
  change ("/actors/" +:+ name +:+ "/" +:+ id +:+ "/rpc")
    with ("" +:+ String slash ("actors" +:+ String slash
            (name +:+ String slash (id +:+ String slash "rpc")))).
  rewrite !split_segment by (first [ exact Hname | reflexivity ]).
  destruct (split_head (id +:+ String slash "rpc")) as [rest ->].
  rewrite first_segment_append. eauto.
Qed.

Section WorkerProperties.
Context {platform : Platform}.
Variable idFromName : string -> nat.

(** The route on a path under [/actors/] whose parts 2 and 3 are
    known. *)
Lemma actor_route_parts (request : Request) (sys : Cloud)
    (p0 p1 name id : string) (rest : list string) :
  String.prefix "/actors/" (pathname request) = true ->
  split slash (pathname request) = p0 :: p1 :: name :: id :: rest ->
  actor_route idFromName request sys
  = if String.eqb name "agent-object"
    then (Some (fst (stub_fetch (idFromName id) request sys)),
          snd (stub_fetch (idFromName id) request sys))
    else (Some actor_not_found, sys).
Proof.
  intros Hprefix Hparts. unfold actor_route. rewrite Hprefix, Hparts.
  cbn [length Nat.leb lookup list_lookup].
  destruct (String.eqb name "agent-object"); [ | reflexivity ].
  destruct (stub_fetch _ _ sys). reflexivity.
Qed.

Lemma actor_route_proxy (name id method : string)
    (params : option (list JsValue)) (sys : Cloud) :
  url_safe name = true ->
  url_safe id = true ->
  first_segment name = name ->
  actor_route idFromName (proxy_request (createActor name id) method params) sys
  = if String.eqb name "agent-object"
    then (Some (fst (stub_fetch (idFromName (first_segment id))
                       (proxy_request (createActor name id) method params) sys)),
          snd (stub_fetch (idFromName (first_segment id))
                 (proxy_request (createActor name id) method params) sys))
    else (Some actor_not_found, sys).
Proof.
  intros Hsafe Hsafe' Hname.
  destruct (proxy_path_parts name id Hname) as [rest Hparts].
  apply (actor_route_parts _ _ "" "actors" name (first_segment id) rest).
  - rewrite proxy_pathname by assumption. apply prefix_append.
  - rewrite proxy_pathname by assumption. exact Hparts.
Qed.

(** X13: for actor ids written with letters, digits, [-], [_] and [/]
    only, the actor route hands a request for the actor ["agent-object"],
    unchanged, to the durable object named by the part of the actor id
    before its first [/] (the whole id when it has none), so two ids of the
    proxy that differ only after a [/] address the same object, and the
    response is the one that object's entry point gives. *)
Theorem actor_route_of_proxy (id id' method : string)
    (params : option (list JsValue)) (sys : Cloud) :
  url_safe id = true ->
  url_safe id' = true ->
  first_segment id = first_segment id' ->
  let request := proxy_request (createActor "agent-object" id) method params in
  let request' := proxy_request (createActor "agent-object" id') method params in
  actor_route idFromName request sys
  = (Some (fst (stub_fetch (idFromName (first_segment id)) request sys)),
     snd (stub_fetch (idFromName (first_segment id)) request sys)) /\
  actor_route idFromName request' sys = actor_route idFromName request sys.
Proof.
  intros Hid Hid' Hsame. cbn zeta.
  rewrite !actor_route_proxy by (first [ assumption | reflexivity ]).
  cbn [String.eqb Ascii.eqb Bool.eqb].
  split; [ reflexivity | ].
  rewrite <- Hsame. unfold stub_fetch.
  rewrite (fetch_rpc _ _ _ _
             (proxy_request_is_rpc (createActor "agent-object" id) method params
                eq_refl Hid)),
          (fetch_rpc _ _ _ _
             (proxy_request_is_rpc (createActor "agent-object" id') method params
                eq_refl Hid')),
          !proxy_request_dispatched.
  reflexivity.
Qed.
End WorkerProperties.

Lemma actor_route_of_proxy_witness :
  fst (actor_route (platform := test_platform) String.length
         (proxy_request (platform := test_platform)
            (createActor "agent-object" "session-12345/extra") "ping" None)
         empty_cloud)
  = Some (result_response (JStr "pong")).
Proof.
  destruct (actor_route_of_proxy (platform := test_platform) String.length
              "session-12345/extra" "session-12345" "ping" None empty_cloud
              eq_refl eq_refl eq_refl)
    as [H _].
  rewrite H. vm_compute. reflexivity.
Defined.

Section WorkerEndToEnd.
Context {platform : Platform}.
Variable idFromName : string -> nat.
Variable app : Collaborators.

Lemma world_of_store_back sys id w :
  is_Some (raw w) -> world_of (store_back sys id w) id = w.
Proof.
  intros [store Hraw]. destruct w as [s r c t]. cbn in Hraw. subst r.
  unfold world_of, actor_at, store_back. cbn [actors cloud_console cloud_ticks].
  rewrite lookup_insert_eq. reflexivity.
Qed.

(** The worker on a request of the proxy for ["agent-object"] that the
    handlers before the actor route let through, leaving [sys0]. *)
Lemma via_worker_proxy id method params sys sys0 :
  url_safe id = true ->
  before_route app (proxy_request (createActor "agent-object" id) method params) sys
  = (inr None, sys0) ->
  via_worker idFromName app
    (proxy_request (createActor "agent-object" id) method params) sys
  = (let i := idFromName (first_segment id) in
     match dispatchRpcCall AgentObject.registry (AgentObject.instance i) (JStr method)
             (JArr (wire_args (default [] params))) (world_of sys0 i) with
     | (inr v, w') =>
         (inr (new_Response (JSON_stringify (JObj [("result", v)])) None),
          store_back sys0 i w')
     | (inl e, w') => (inr (error_response e), store_back sys0 i w')
     end).
Proof.
  intros Hid Hpass. unfold via_worker, app_fetch, bind. rewrite Hpass.
  rewrite actor_route_proxy by (first [ assumption | reflexivity ]).
  cbn [String.eqb Ascii.eqb Bool.eqb]. unfold stub_fetch. cbn zeta.
  rewrite (fetch_rpc _ _ _ _
             (proxy_request_is_rpc (createActor "agent-object" id) method params
                eq_refl Hid)),
          proxy_request_dispatched.
  destruct (dispatchRpcCall _ _ _ _ _) as [[e | v] w']; reflexivity.
Qed.

(** X14: a call through the proxy, for an actor id written with letters,
    digits, [-], [_] and [/] only, that the common headers and the session
    loader of the worker let through, is one dispatch on the durable object
    the actor id names, run in that object's world (its in-memory state
    and its storage); the caller gets the result as JSON renders it, or the
    transport error 500. *)
Theorem callMethod_via_worker (id method : string) (params : option (list JsValue))
    (sys sys0 : Cloud) :
  url_safe id = true ->
  before_route app (proxy_request (createActor "agent-object" id) method params) sys
  = (inr None, sys0) ->
  callMethod (via_worker idFromName app)
    (createActor "agent-object" id) method params sys
  = (let i := idFromName (first_segment id) in
     match dispatchRpcCall AgentObject.registry (AgentObject.instance i) (JStr method)
             (JArr (wire_args (default [] params))) (world_of sys0 i) with
     | (inr v, w') => (inr (wire_result v), store_back sys0 i w')
     | (inl e, w') =>
         (inl (TransportError (status (error_response e))
                              (statusText (error_response e))),
          store_back sys0 i w')
     end).
Proof.
  intros Hid Hpass. unfold callMethod, bind.
  fold (proxy_request (createActor "agent-object" id) method params).
  rewrite (via_worker_proxy _ _ _ _ _ Hid Hpass). cbn zeta.
  destruct (dispatchRpcCall _ _ _ _ _) as [[e | v] w'].
  - reflexivity.
  - unfold JSON_stringify, wire_result. cbn [jsonify].
    destruct (jsonify v) as [doc | ]; reflexivity.
Qed.

(** X16: for an actor name, written with letters, digits, [-] and [_]
    only, that the worker does not serve, every call that the common
    headers and the session loader let through fails with the transport
    error 404, and no durable object is touched. *)
Theorem proxy_unknown_actor (name id method : string)
    (params : option (list JsValue)) (sys sys0 : Cloud) :
  url_safe name = true ->
  url_safe id = true ->
  first_segment name = name ->
  name <> "agent-object" ->
  before_route app (proxy_request (createActor name id) method params) sys
  = (inr None, sys0) ->
  callMethod (via_worker idFromName app)
    (createActor name id) method params sys
  = (inl (TransportError (status actor_not_found) (statusText actor_not_found)), sys0).
Proof.
  intros Hsafe Hid Hname Hne Hpass. unfold callMethod, bind.
  fold (proxy_request (createActor name id) method params).
  unfold via_worker, app_fetch, bind. rewrite Hpass.
  rewrite (actor_route_proxy _ _ _ _ _ _ Hsafe Hid Hname).
  apply String.eqb_neq in Hne. rewrite Hne. reflexivity.
Qed.

(** When the session loader meets a session it must reject, no call
    reaches a durable object: the worker answers with the redirect, which
    is outside the success range. *)
Lemma session_rejected_redirects (request : Request) (sys sys1 sys2 sys3 sys4 : Cloud) :
  setCommonHeaders app request sys = (inr None, sys1) ->
  setupDb app sys1 = (inr tt, sys2) ->
  setupSessionStore app sys2 = (inr tt, sys3) ->
  sessions_load app request sys3 = (SessionUnauthorized, sys4) ->
  via_worker idFromName app request sys
  = match sessions_remove app request sys4 with
    | (inr _, sys5) => (inr (new_Response (PlainText "") (Some 302%Z)), sys5)
    | (inl e, sys5) => (inr (uncaught app e), sys5)
    end.
Proof.
  intros H1 H2 H3 H4.
  unfold via_worker, app_fetch, before_route, session_handler, bind.
  rewrite H1, H2, H3, H4.
  destruct (sessions_remove app request sys4) as [[e | []] sys5]; reflexivity.
Qed.
End WorkerEndToEnd.

(** On the stand-in collaborators every request reaches the actor
    route. *)
Lemma test_app_lets_through (request : Request) (sys : Cloud) :
  before_route test_app request sys = (inr None, sys).
Proof. reflexivity. Qed.

Lemma callMethod_via_worker_witness :
  callMethod (platform := test_platform)
    (via_worker (platform := test_platform) String.length test_app)
    (createActor "agent-object" "session-12345") "addMessage" (Some [JStr "hello"])
    empty_cloud
  = (inr (JStr ("Message " +:+ dquote +:+ "hello" +:+ dquote +:+ " added successfully")),
     store_back empty_cloud 13
       (snd (AgentObject.addMessage (platform := test_platform) [JStr "hello"]
               (world_of empty_cloud 13)))).
Proof.
  rewrite (callMethod_via_worker (platform := test_platform) String.length test_app
             "session-12345" "addMessage" (Some [JStr "hello"]) empty_cloud empty_cloud
             eq_refl eq_refl).
  vm_compute. reflexivity.
Defined.

Lemma proxy_unknown_actor_witness :
  callMethod (platform := test_platform)
    (via_worker (platform := test_platform) String.length test_app)
    (createActor "session-object" "session-12345") "ping" None empty_cloud
  = (inl (TransportError 404 ""), empty_cloud).
Proof.
  apply (proxy_unknown_actor (platform := test_platform) String.length test_app
           "session-object" "session-12345" "ping" None);
    first [ reflexivity | discriminate ].
Defined.

Section StateOnTheWire.
Context {platform : Platform}.

Lemma wire_args_strings (l : list string) : wire_args (map JStr l) = map JStr l.
Proof. induction l as [ | x l IH ]; [ reflexivity | ]. cbn. f_equal. exact IH. Qed.

(** The state [getState] returns, as the proxy's caller receives it. *)
Lemma jsonify_state (s : AgentState) : jsonify (state_value s) = Some (wire_state s).
Proof.
  unfold state_value, wire_state.
  assert (jsonify (JArr (map JStr (messages s))) = Some (JArr (map JStr (messages s)))) as H.
  { change (jsonify (JArr (map JStr (messages s))))
      with (Some (JArr (wire_args (map JStr (messages s))))).
    rewrite wire_args_strings. reflexivity. }
  cbn [jsonify] in *. injection H as H.
  destruct (lastUpdated s); cbn [jsonify default]; rewrite H; reflexivity.
Qed.
End StateOnTheWire.


Section ProxyScenario.
Context {platform : Platform}.
Variable idFromName : string -> nat.
Variable app : Collaborators.

End ProxyScenario.


(** ** The page handlers *)

Section HomeProperties.
Context {platform : Platform} {CW : Type}.
Variable transport : Request -> M CW Response.
Variable trim : string -> string.

(** Whatever the body and the handler do, the cells after a handler built
    with this [finally] have the loading flag down. *)
Lemma try_catch_finally_loading body handler (p : Page CW) :
  ui_isLoading (ui (Home.try_catch_finally body handler
                      (Home.on_ui (setIsLoading false)) p)) = false.
Proof.
  unfold Home.try_catch_finally.
  destruct (body p) as [[e | u] p']; reflexivity.
Qed.

(** X18: [handlePing] and [handleGetState] always end with the loading
    flag down, whether the call succeeded, failed, or returned something
    unusable; [handleAddMessage] does too, except on a blank message, where
    it leaves the flag as it found it. *)
Theorem handlers_reset_loading (p : Page CW) :
  ui_isLoading (ui (Home.handlePing transport p)) = false /\
  ui_isLoading (ui (Home.handleGetState transport p)) = false /\
  ui_isLoading (ui (Home.handleAddMessage transport trim p))
  = (if truthy (JStr (trim (ui_message (ui p)))) then false else ui_isLoading (ui p)).
Proof.
  repeat split.
  - apply try_catch_finally_loading.
  - apply try_catch_finally_loading.
  - unfold Home.handleAddMessage.
    destruct (truthy (JStr (trim (ui_message (ui p))))); cbn [negb].
    + apply try_catch_finally_loading.
    + reflexivity.
Qed.

(** X19: a blank message is stopped at the page: [handleAddMessage] sends
    no request, whatever the transport, and only replaces the response
    shown by the prompt to enter a message. *)
Theorem handleAddMessage_blank (p : Page CW) :
  trim (ui_message (ui p)) = "" ->
  Home.handleAddMessage transport trim p
  = {| ui := setResponse (JStr "Please enter a message") (ui p);
       console_errors := console_errors p;
       net := net p |}.
Proof.
  intros Hblank. unfold Home.handleAddMessage. rewrite Hblank. reflexivity.
Qed.

(** X20: what the handlers leave alone.  None of them changes the time
    zone input; [handlePing] and [handleAddMessage] never change the state
    shown, nor does [handleGetState] when its call fails; the message input
    changes only in [handleAddMessage], to the empty string, and exactly
    when the message was not blank and the call succeeded. *)
Theorem handlers_preserve_cells (p : Page CW) :
  (ui_timezone (ui (Home.handlePing transport p)) = ui_timezone (ui p) /\
   ui_message (ui (Home.handlePing transport p)) = ui_message (ui p) /\
   ui_state (ui (Home.handlePing transport p)) = ui_state (ui p)) /\
  (ui_timezone (ui (Home.handleGetState transport p)) = ui_timezone (ui p) /\
   ui_message (ui (Home.handleGetState transport p)) = ui_message (ui p) /\
   (forall e, fst (proxy_getState transport Home.actor (net p)) = inl e ->
      ui_state (ui (Home.handleGetState transport p)) = ui_state (ui p))) /\
  (ui_timezone (ui (Home.handleAddMessage transport trim p)) = ui_timezone (ui p) /\
   ui_state (ui (Home.handleAddMessage transport trim p)) = ui_state (ui p) /\
   ui_message (ui (Home.handleAddMessage transport trim p))
   = (if truthy (JStr (trim (ui_message (ui p))))
      then match fst (proxy_addMessage transport Home.actor (ui_message (ui p)) (net p)) with
           | inr _ => ""
           | inl _ => ui_message (ui p)
           end
      else ui_message (ui p))).
Proof.
  split; [ | split ].
  - unfold Home.handlePing, Home.try_catch_finally, Home.call, Home.on_ui,
      Home.console_error, bind.
    cbn [snd net ui console_errors].
    destruct (if truthy (JStr (ui_timezone (ui p))) then _ else _) as [[e | v] cw];
      repeat split; reflexivity.
  - unfold Home.handleGetState, Home.try_catch_finally, Home.call, Home.on_ui,
      Home.console_error, bind, lift.
    cbn [snd net ui console_errors].
    destruct (proxy_getState transport Home.actor (net p)) as [[e | v] cw].
    + repeat split; reflexivity.
    + cbn [fst]. destruct (get_prop v "counter") as [e | c];
        [ | destruct (ToString c) ];
        repeat split; try reflexivity; intros e' [=].
  - unfold Home.handleAddMessage.
    destruct (truthy (JStr (trim (ui_message (ui p))))); cbn [negb];
      [ | repeat split; reflexivity ].
    unfold Home.try_catch_finally, Home.call, Home.on_ui, Home.console_error, bind.
    cbn [snd net ui console_errors].
    destruct (proxy_addMessage transport Home.actor (ui_message (ui p)) (net p))
      as [[e | v] cw]; repeat split; reflexivity.
Qed.

(** X21: a failed call is always reported: the response shown is the
    handler's prefix followed by the error message, and the error is
    printed once on the console; a successful [ping] or [addMessage] shows
    the result and prints nothing. *)
Theorem handlers_report_failure (p : Page CW) :
  (forall e cw, ping_call transport (ui_timezone (ui p)) (net p) = (inl e, cw) ->
     ui_response (ui (Home.handlePing transport p))
     = JStr ("Error calling ping method: " +:+ message e) /\
     console_errors (Home.handlePing transport p)
     = console_errors p ++ [("Error calling ping:", e)]) /\
  (forall v cw, ping_call transport (ui_timezone (ui p)) (net p) = (inr v, cw) ->
     ui_response (ui (Home.handlePing transport p)) = v /\
     console_errors (Home.handlePing transport p) = console_errors p) /\
  (forall e cw, proxy_getState transport Home.actor (net p) = (inl e, cw) ->
     ui_response (ui (Home.handleGetState transport p))
     = JStr ("Error getting state: " +:+ message e) /\
     console_errors (Home.handleGetState transport p)
     = console_errors p ++ [("Error getting state:", e)]) /\
  (forall e cw, truthy (JStr (trim (ui_message (ui p)))) = true ->
     proxy_addMessage transport Home.actor (ui_message (ui p)) (net p) = (inl e, cw) ->
     ui_response (ui (Home.handleAddMessage transport trim p))
     = JStr ("Error adding message: " +:+ message e) /\
     console_errors (Home.handleAddMessage transport trim p)
     = console_errors p ++ [("Error adding message:", e)]) /\
  (forall v cw, truthy (JStr (trim (ui_message (ui p)))) = true ->
     proxy_addMessage transport Home.actor (ui_message (ui p)) (net p) = (inr v, cw) ->
     ui_response (ui (Home.handleAddMessage transport trim p)) = v /\
     console_errors (Home.handleAddMessage transport trim p) = console_errors p).
Proof.
  repeat split;
    unfold Home.handlePing, Home.handleGetState, Home.handleAddMessage;
    repeat match goal with
           | H : truthy _ = true |- _ => rewrite H; clear H; cbn [negb]
           | H : ping_call _ _ _ = _ |- _ => unfold ping_call in H
           end;
    unfold Home.try_catch_finally, Home.call, Home.on_ui, Home.console_error, bind;
    cbn [snd net ui console_errors];
    match goal with H : _ = (_, _) |- _ => rewrite H end; reflexivity.
Qed.

(** X22: when what [getState] hands back has no readable [counter]
    ([null] or [undefined]), the handler has already stored it as the state
    shown when the read throws: the page shows the error of that read,
    prints it once, and the state shown is the unusable result. *)
Theorem handleGetState_unusable_result (p : Page CW) (v : JsValue) (e : JsError) (cw : CW) :
  proxy_getState transport Home.actor (net p) = (inr v, cw) ->
  get_prop v "counter" = inl e ->
  ui_state (ui (Home.handleGetState transport p)) = v /\
  ui_response (ui (Home.handleGetState transport p))
  = JStr ("Error getting state: " +:+ message e) /\
  console_errors (Home.handleGetState transport p)
  = console_errors p ++ [("Error getting state:", e)].
Proof.
  intros H He. unfold Home.handleGetState, Home.try_catch_finally, Home.call, Home.on_ui,
    Home.console_error, bind, lift.
  cbn [snd net ui console_errors]. rewrite H, He. repeat split; reflexivity.
Qed.
End HomeProperties.

Lemma handleAddMessage_blank_witness :
  let p := {| ui := setMessage "   " initial_home; console_errors := []; net := empty_cloud |} in
  Home.handleAddMessage (platform := test_platform)
    (via_worker (platform := test_platform) String.length test_app)
    test_trim p
  = {| ui := setResponse (JStr "Please enter a message") (ui p);
       console_errors := []; net := empty_cloud |}.
Proof.
  apply (handleAddMessage_blank (platform := test_platform)). reflexivity.
Defined.

Lemma handleGetState_unusable_result_witness :
  let transport : Request -> M unit Response :=
    fun _ => ret (result_response JNull) in
  ui_state (ui (Home.handleGetState (platform := test_platform) transport (fresh_page tt)))
  = JNull /\
  ui_response (ui (Home.handleGetState (platform := test_platform) transport (fresh_page tt)))
  = JStr "Error getting state: Cannot read properties of null (reading 'counter')".
Proof.
  destruct (handleGetState_unusable_result (platform := test_platform)
              (fun _ => ret (result_response JNull)) (fresh_page tt) JNull
              (TypeError "Cannot read properties of null (reading 'counter')") tt
              eq_refl eq_refl) as (Hs & Hr & _).
  split; [ exact Hs | exact Hr ].
Defined.

(** ** The page in front of the worker *)

Section HomeEndToEnd.
Context {platform : Platform}.
Variable idFromName : string -> nat.
Variable app : Collaborators.

(** The call of a decorated method, made by the page's proxy through the
    worker, for a request the handlers before the actor route let
    through and a method that returns. *)
Lemma page_call method params (f : list JsValue -> M World JsValue)
    (sys sys0 : Cloud) (v : JsValue) (w' : World) :
  before_route app (proxy_request Home.actor method params) sys = (inr None, sys0) ->
  In method ["ping"; "getState"; "addMessage"] ->
  AgentObject.methods method = Some f ->
  f (wire_args (default [] params)) (world_of sys0 (idFromName "session-12345")) = (inr v, w') ->
  callMethod (via_worker idFromName app) Home.actor method params sys
  = (inr (wire_result v), store_back sys0 (idFromName "session-12345") w').
Proof.
  intros Hpass Hin Hf Hrun. unfold callMethod, bind.
  fold (proxy_request Home.actor method params).
  unfold Home.actor in *.
  rewrite (via_worker_proxy idFromName app "session-12345" method params sys sys0
             eq_refl Hpass).
  cbn zeta.
  change (first_segment "session-12345") with "session-12345".
  rewrite (AgentObject_dispatch _ method f _ _ Hin Hf), Hrun.
  unfold JSON_stringify, wire_result. cbn [jsonify].
  destruct (jsonify v); reflexivity.
Qed.

(** X23: with no time zone typed, and a request that the common headers
    and the session loader of the worker let through, a click on the ping
    button of the page shows "pong", and the durable object
    ["session-12345"] has run one [ping]: its counter has advanced by one
    and its new state is persisted. *)
Theorem handlePing_shows_pong (p : Page Cloud) (sys0 : Cloud) :
  ui_timezone (ui p) = "" ->
  before_route app (proxy_request Home.actor "ping" (Some [])) (net p) = (inr None, sys0) ->
  let i := idFromName "session-12345" in
  let p' := Home.handlePing (via_worker idFromName app) p in
  ui_response (ui p') = JStr "pong" /\
  ui_isLoading (ui p') = false /\
  console_errors p' = console_errors p /\
  world_of (net p') i = snd (AgentObject.ping [] (world_of sys0 i)) /\
  counter (memory (actor_at (net p') i))
  = (counter (memory (actor_at sys0 i)) + 1)%Z /\
  storage (actor_at (net p') i) !! "state" = Some (memory (actor_at (net p') i)).
Proof.
  intros Htz Hpass. cbn zeta. set (i := idFromName "session-12345").
  set (w := world_of sys0 i).
  assert (AgentObject.ping [] w = (inr (JStr "pong"), snd (AgentObject.ping [] w))) as Hping
    by reflexivity.
  set (w1 := snd (AgentObject.ping [] w)) in *.
  assert (proxy_ping (via_worker idFromName app) Home.actor None (net p)
          = (inr (JStr "pong"), store_back sys0 i w1)) as Hcall.
  { unfold proxy_ping.
    rewrite (page_call "ping" (Some []) AgentObject.ping (net p) sys0 (JStr "pong") w1);
      first [ reflexivity | left; reflexivity | exact Hping | exact Hpass ]. }
  assert (Home.handlePing (via_worker idFromName app) p
          = {| ui := setIsLoading false (setResponse (JStr "pong")
                       (setIsLoading true (ui p)));
               console_errors := console_errors p;
               net := store_back sys0 i w1 |}) as ->.
  { unfold Home.handlePing, Home.try_catch_finally, Home.call, Home.on_ui, bind.
    cbn [snd net ui console_errors]. rewrite Htz. cbn [truthy String.eqb negb].
    rewrite Hcall. reflexivity. }
  cbn [ui net console_errors ui_response ui_isLoading setIsLoading setResponse].
  destruct (ping_effect [] w eq_refl) as [Hs Hr]. fold w1 in Hs, Hr.
  assert (is_Some (raw w1)) as Hraw by (rewrite Hr; cbn; eauto).
  repeat split.
  - apply world_of_store_back. exact Hraw.
  - unfold actor_at at 1, store_back. cbn [actors]. rewrite lookup_insert_eq.
    cbn [default memory]. rewrite Hs. reflexivity.
  - unfold actor_at, store_back. cbn [actors]. rewrite lookup_insert_eq.
    cbn [default memory storage]. rewrite Hr. cbn [raw w world_of].
    rewrite Hs. apply lookup_insert_eq.
Qed.

(** X24: for a request that the common headers and the session loader of
    the worker let through, a click on the state button shows the counter
    of the durable object's state, the persisted one when there is one,
    otherwise the one in memory, and stores that state, as JSON renders
    it, as the state shown; the object is not changed. *)
Theorem handleGetState_shows_counter (p : Page Cloud) (sys0 : Cloud) :
  before_route app (proxy_request Home.actor "getState" (Some [])) (net p)
  = (inr None, sys0) ->
  let i := idFromName "session-12345" in
  let s := match storage (actor_at sys0 i) !! "state" with
           | Some v => v
           | None => memory (actor_at sys0 i)
           end in
  let p' := Home.handleGetState (via_worker idFromName app) p in
  ui_response (ui p')
  = JStr ("State retrieved (counter: " +:+ numberToString (counter s) +:+ ")") /\
  ui_state (ui p') = wire_state s /\
  ui_isLoading (ui p') = false /\
  actor_at (net p') i = actor_at sys0 i.
Proof.
  intros Hpass. cbn zeta. set (i := idFromName "session-12345").
  set (s := match storage (actor_at sys0 i) !! "state" with
            | Some v => v
            | None => memory (actor_at sys0 i)
            end).
  set (w := world_of sys0 i).
  assert (AgentObject.getState [] w = (inr (state_value s), w)) as Hget by reflexivity.
  assert (proxy_getState (via_worker idFromName app) Home.actor (net p)
          = (inr (wire_state s), store_back sys0 i w)) as Hcall.
  { unfold proxy_getState.
    rewrite (page_call "getState" (Some []) AgentObject.getState (net p) sys0
               (state_value s) w);
      first [ reflexivity | right; left; reflexivity | exact Hget | exact Hpass | idtac ].
    unfold wire_result. rewrite jsonify_state. reflexivity. }
  assert (Home.handleGetState (via_worker idFromName app) p
          = {| ui := setIsLoading false
                       (setResponse (JStr ("State retrieved (counter: "
                                           +:+ numberToString (counter s) +:+ ")"))
                          (setState (wire_state s) (setIsLoading true (ui p))));
               console_errors := console_errors p;
               net := store_back sys0 i w |}) as ->.
  { unfold Home.handleGetState, Home.try_catch_finally, Home.call, Home.on_ui, bind, lift.
    cbn [snd net ui console_errors]. rewrite Hcall. reflexivity. }
  cbn [ui net ui_response ui_state ui_isLoading setIsLoading setResponse setState].
  repeat split.
  unfold actor_at at 1, store_back. cbn [actors]. rewrite lookup_insert_eq.
  cbn [default]. unfold w, world_of. cbn [state raw].
  destruct (actor_at sys0 i). reflexivity.
Qed.
End HomeEndToEnd.

Lemma handlePing_shows_pong_witness :
  ui_response (ui (Home.handlePing (platform := test_platform)
                     (via_worker (platform := test_platform) String.length test_app)
                     (fresh_page empty_cloud)))
  = JStr "pong".
Proof.
  refine (proj1 (handlePing_shows_pong (platform := test_platform) String.length
                   test_app (fresh_page empty_cloud) empty_cloud eq_refl eq_refl)).
Defined.

Lemma handleGetState_shows_counter_witness :
  ui_response (ui (Home.handleGetState (platform := test_platform)
                     (via_worker (platform := test_platform) String.length test_app)
                     (fresh_page empty_cloud)))
  = JStr "State retrieved (counter: 0)".
Proof.
  refine (proj1 (handleGetState_shows_counter (platform := test_platform) String.length
                   test_app (fresh_page empty_cloud) empty_cloud eq_refl)).
Defined.
